(** * Product dashboard (supabase-ui): filtering, reset, load and export

    A shallow embedding of the [App] component of [src/App.tsx] (and of its
    two sibling versions, the second half of [src/App.tsx] and
    [unnamed/part_000]) together with the properties stated about it.

    Modelling conventions.
    - A JavaScript string is a sequence of code units; the model keeps the
      code units below 256 (Latin-1), as [String.string].  [toLowerCase],
      [trim] and [includes] follow ECMAScript on that range.
    - The React state of the component is the record [AppState]; a setter
      [setX v] is the record update.  The world around the component (the
      console, the data store requests, the downloaded files) is the record
      [World].
    - The component is run event by event; one [step] is one event handler
      followed by the effects React runs after the re-render (updates of one
      handler are batched into a single render); [handle] alone gives the
      render between the handler and its effects.
    - The spreadsheet library is outside the sources: the model keeps of it
      what the calls of [exportToExcel] fix (columns from the keys of the
      records, a write that can throw). *)

From Stdlib Require Import List String Ascii Bool Arith NArith ZArith QArith Lia.
Import ListNotations.

Local Open Scope nat_scope.
Local Open Scope string_scope.
Local Open Scope list_scope.

(** ** JavaScript primitives used by the component *)

Module Js.

(** [if (s)] on a string: the empty string is the only falsy string. *)
Definition truthy (s : string) : bool :=
  match s with
  | EmptyString => false
  | String _ _ => true
  end.

(** One code unit of [String.prototype.toLowerCase]: A-Z, and the Latin-1
    capitals U+00C0..U+00DE except the multiplication sign U+00D7, move up
    by 32; every other code unit below 256 is its own lower case. *)
Definition lowerUnit (c : ascii) : ascii :=
  let n := N_of_ascii c in
  if ((65 <=? n) && (n <=? 90))%N
     || ((192 <=? n) && (n <=? 222) && negb (n =? 215))%N
  then ascii_of_N (n + 32)
  else c.

Fixpoint toLowerCase (s : string) : string :=
  match s with
  | EmptyString => EmptyString
  | String c s' => String (lowerUnit c) (toLowerCase s')
  end.

(** WhiteSpace and LineTerminator code units below 256: TAB, LF, VT, FF,
    CR, SP and NBSP. *)
Definition isWhiteSpace (c : ascii) : bool :=
  let n := N_of_ascii c in
  ((9 <=? n) && (n <=? 13) || (n =? 32) || (n =? 160))%N.

Fixpoint trimStart (s : string) : string :=
  match s with
  | EmptyString => EmptyString
  | String c s' => if isWhiteSpace c then trimStart s' else s
  end.

Fixpoint trimEnd (s : string) : string :=
  match s with
  | EmptyString => EmptyString
  | String c s' =>
      match trimEnd s' with
      | EmptyString => if isWhiteSpace c then EmptyString
                       else String c EmptyString
      | t => String c t
      end
  end.

(** [String.prototype.trim]. *)
Definition trim (s : string) : string := trimEnd (trimStart s).

(** [s.includes(t)]: [t] occurs in [s] at some position. *)
Fixpoint includes (s t : string) : bool :=
  String.prefix t s
  || match s with
     | EmptyString => false
     | String _ s' => includes s' t
     end.

(** [new Set(iterable)] followed by [Array.from]: a set keeps its values
    in insertion order, and adding a value already present does nothing. *)
Definition Set_add (acc : list string) (x : string) : list string :=
  if existsb (String.eqb x) acc then acc else acc ++ [x].

Definition Set_new (xs : list string) : list string :=
  fold_left Set_add xs [].

Definition Array_from (set : list string) : list string := set.

End Js.

(** ** Data model *)

(** [type Product].  [id] is an integer identifier and [price] a numeric
    amount; no operation of the component inspects either. *)
Record Product : Type := mkProduct {
  id : Z;
  name : string;
  category : string;
  brand : string;
  price : Q
}.

(** The seven [useState] cells of [App]. *)
Record AppState : Type := mkAppState {
  products : list Product;
  filtered : list Product;
  brands : list string;
  categories : list string;
  selectedBrand : string;
  selectedCategory : string;
  search : string
}.

Definition initialState : AppState :=
  {| products := []; filtered := []; brands := []; categories := [];
     selectedBrand := ""; selectedCategory := ""; search := "" |}.

Definition setProducts (v : list Product) (st : AppState) : AppState :=
  {| products := v; filtered := filtered st; brands := brands st;
     categories := categories st; selectedBrand := selectedBrand st;
     selectedCategory := selectedCategory st; search := search st |}.

Definition setFiltered (v : list Product) (st : AppState) : AppState :=
  {| products := products st; filtered := v; brands := brands st;
     categories := categories st; selectedBrand := selectedBrand st;
     selectedCategory := selectedCategory st; search := search st |}.

Definition setBrands (v : list string) (st : AppState) : AppState :=
  {| products := products st; filtered := filtered st; brands := v;
     categories := categories st; selectedBrand := selectedBrand st;
     selectedCategory := selectedCategory st; search := search st |}.

Definition setCategories (v : list string) (st : AppState) : AppState :=
  {| products := products st; filtered := filtered st; brands := brands st;
     categories := v; selectedBrand := selectedBrand st;
     selectedCategory := selectedCategory st; search := search st |}.

Definition setSelectedBrand (v : string) (st : AppState) : AppState :=
  {| products := products st; filtered := filtered st; brands := brands st;
     categories := categories st; selectedBrand := v;
     selectedCategory := selectedCategory st; search := search st |}.

Definition setSelectedCategory (v : string) (st : AppState) : AppState :=
  {| products := products st; filtered := filtered st; brands := brands st;
     categories := categories st; selectedBrand := selectedBrand st;
     selectedCategory := v; search := search st |}.

Definition setSearch (v : string) (st : AppState) : AppState :=
  {| products := products st; filtered := filtered st; brands := brands st;
     categories := categories st; selectedBrand := selectedBrand st;
     selectedCategory := selectedCategory st; search := v |}.

(** ** The Filter Engine: [applyFilters] *)

(** The text predicate of [applyFilters], for the lower-cased query [s]. *)
Definition matchesText (s : string) (p : Product) : bool :=
  Js.includes (Js.toLowerCase (name p)) s
  || Js.includes (Js.toLowerCase (brand p)) s
  || Js.includes (Js.toLowerCase (category p)) s.

(** The body of [applyFilters] up to the final [setFiltered], as a function
    of the four state cells it reads. *)
Definition filterProducts (products : list Product)
    (selectedBrand selectedCategory search : string) : list Product :=
  let filteredData := products in
  let filteredData :=
    if Js.truthy selectedBrand
    then filter (fun p => String.eqb (brand p) selectedBrand) filteredData
    else filteredData in
  let filteredData :=
    if Js.truthy selectedCategory
    then filter (fun p => String.eqb (category p) selectedCategory) filteredData
    else filteredData in
  let filteredData :=
    if Js.truthy (Js.trim search)
    then let s := Js.toLowerCase search in
         filter (matchesText s) filteredData
    else filteredData in
  filteredData.

Definition applyFilters (st : AppState) : AppState :=
  setFiltered
    (filterProducts (products st) (selectedBrand st) (selectedCategory st)
       (search st))
    st.

(** [resetFilters]. *)
Definition resetFilters (st : AppState) : AppState :=
  setFiltered (products st)
    (setSearch "" (setSelectedCategory "" (setSelectedBrand "" st))).

(** ** The world around the component *)

(** The object [{ data, error }] the data store client resolves to.  Of the
    error object only [message] is read. *)
Record Response : Type := mkResponse {
  data : option (list Product);
  error : option string
}.

(** Outcome of a function body that may throw. *)
Inductive Completion (A : Type) : Type :=
| Normal (a : A)
| Throw (e : string).
Arguments Normal {A} a.
Arguments Throw {A} e.

(** *** Spreadsheet documents *)

Inductive Cell : Type :=
| NumberCell (n : Q)
| TextCell (s : string).

(** A sheet: the cells of the header row, then the data rows; a data row
    has one cell per column, empty where the record has no such key. *)
Record Sheet : Type := mkSheet {
  headerRow : list string;
  dataRows : list (list (option Cell))
}.

Definition Workbook : Type := list (string * Sheet).

Record File : Type := mkFile {
  fileName : string;
  workbook : Workbook
}.

(** A JavaScript object as the library reads it: its own keys with their
    values, in key order. *)
Definition JsObject : Type := list (string * Cell).

(** The keys and the values of a product record.  The order in which the
    store delivers the keys is not part of [Product]: the model takes the
    order of the type declaration, and the statements about the header do
    not depend on it. *)
Definition productColumns : list string :=
  ["id"; "name"; "category"; "brand"; "price"].

Definition productRow (p : Product) : list Cell :=
  [NumberCell (inject_Z (id p)); TextCell (name p); TextCell (category p);
   TextCell (brand p); NumberCell (price p)].

Definition toObject (p : Product) : JsObject :=
  combine productColumns (productRow p).

(** [o[k]]. *)
Fixpoint lookupKey (k : string) (o : JsObject) : option Cell :=
  match o with
  | [] => None
  | (k', c) :: o' => if String.eqb k k' then Some c else lookupKey k o'
  end.

(** The spreadsheet library ([xlsx]) is an external collaborator and not
    part of the sources; the model keeps of it what the calls made by
    [exportToExcel] fix.  [XLSX.utils.json_to_sheet(filtered)] is given the
    records and no header option: the columns are the own keys of the
    records, first seen first, written as one header row, and every record
    gives one data row, read under those columns.  A list without records
    has no key, and so no header cell. *)
Definition json_to_sheet (js : list JsObject) : Sheet :=
  let hdr := Js.Array_from (Js.Set_new (flat_map (map fst) js)) in
  {| headerRow := hdr;
     dataRows := map (fun o => map (fun k => lookupKey k o) hdr) js |}.

Definition book_new : Workbook := [].

Definition book_append_sheet (wb : Workbook) (ws : Sheet) (sheetName : string)
  : Workbook :=
  wb ++ [(sheetName, ws)].

(** A spreadsheet cell holds at most 32767 characters of text. *)
Definition maxTextLength : nat := N.to_nat 32767.

Definition cellFits (c : option Cell) : bool :=
  match c with
  | Some (TextCell s) => Nat.leb (String.length s) maxTextLength
  | Some (NumberCell _) | None => true
  end.

Definition sheetFits (ws : Sheet) : bool :=
  forallb (fun k => Nat.leb (String.length k) maxTextLength) (headerRow ws)
  && forallb (forallb cellFits) (dataRows ws).

(** [XLSX.writeFile(wb, filename)]: serialises the workbook and saves it
    under [filename]; it throws, and saves nothing, when a text cell is
    longer than a cell can hold. *)
Definition writeFile (wb : Workbook) (filename : string) : Completion File :=
  if forallb (fun named => sheetFits (snd named)) wb
  then Normal {| fileName := filename; workbook := wb |}
  else Throw "Text length must not exceed 32767 characters".

(** *** The three versions of the component *)

Inductive Version : Type :=
| AppAuto    (* src/App.tsx, first component: filters re-applied by an effect *)
| AppApply   (* src/App.tsx, second component: an Apply button *)
| Part000.   (* unnamed/part_000: an Apply button, early return on error *)

Record World : Type := mkWorld {
  app : AppState;
  (** identity of the array object held in [products]; the deps of an effect
      are compared with [Object.is], which for an array is identity *)
  productsRef : nat;
  (** the argument lists of the [console.error] calls so far *)
  console : list (list string);
  (** number of read requests issued to the data store *)
  requests : nat;
  (** the response of the request in flight, if any *)
  pending : option Response;
  (** files saved by [XLSX.writeFile] *)
  downloads : list File
}.

Definition initialWorld : World :=
  {| app := initialState; productsRef := 0; console := []; requests := 0;
     pending := None; downloads := [] |}.

Definition onApp (f : AppState -> AppState) (w : World) : World :=
  {| app := f (app w); productsRef := productsRef w; console := console w;
     requests := requests w; pending := pending w; downloads := downloads w |}.

Definition freshProductsRef (w : World) : World :=
  {| app := app w; productsRef := S (productsRef w); console := console w;
     requests := requests w; pending := pending w; downloads := downloads w |}.

Definition console_error (args : list string) (w : World) : World :=
  {| app := app w; productsRef := productsRef w;
     console := console w ++ [args];
     requests := requests w; pending := pending w; downloads := downloads w |}.

Definition setPending (r : option Response) (w : World) : World :=
  {| app := app w; productsRef := productsRef w; console := console w;
     requests := requests w; pending := r; downloads := downloads w |}.

Definition sendRequest (r : Response) (w : World) : World :=
  {| app := app w; productsRef := productsRef w; console := console w;
     requests := S (requests w); pending := Some r; downloads := downloads w |}.

Definition saveFile (f : File) (w : World) : World :=
  {| app := app w; productsRef := productsRef w; console := console w;
     requests := requests w; pending := pending w;
     downloads := downloads w ++ [f] |}.

(** *** [fetchProducts] *)

(** Up to the [await]: one [select('*')] is sent; [r] is what the store will
    answer. *)
Definition fetchProducts_request (r : Response) (w : World) : World :=
  sendRequest r w.

(** The four setters of the success branch; the array from the store is a new
    object. *)
Definition storeProducts (typedData : list Product) (w : World) : World :=
  let brandSet := Js.Set_new (map brand typedData) in
  let categorySet := Js.Set_new (map category typedData) in
  let w := freshProductsRef (onApp (setProducts typedData) w) in
  let w := onApp (setFiltered typedData) w in
  let w := onApp (setBrands (Js.Array_from brandSet)) w in
  onApp (setCategories (Js.Array_from categorySet)) w.

(** After the [await], with the response [r]. *)
Definition fetchProducts_resume (v : Version) (r : Response) (w : World)
  : Completion World :=
  match v with
  | AppAuto | AppApply =>
      match error r with
      | Some message => Normal (console_error ["Error fetching:"; message] w)
      | None =>
          match data r with
          | Some typedData => Normal (storeProducts typedData w)
          | None => Normal w
          end
      end
  | Part000 =>
      match error r with
      | Some message =>
          Normal (console_error ["Error fetching data:"; message] w)
      | None =>
          match data r with
          | Some productList => Normal (storeProducts productList w)
          | None => Throw "TypeError: productList is null"
          end
      end
  end.

(** *** [exportToExcel] *)

Definition sheetName (v : Version) : string :=
  match v with
  | AppAuto | AppApply => "Products"
  | Part000 => "FilteredData"
  end.

Definition exportToExcel (v : Version) (w : World) : Completion World :=
  let ws := json_to_sheet (map toObject (filtered (app w))) in
  let wb := book_new in
  let wb := book_append_sheet wb ws (sheetName v) in
  match writeFile wb "Filtered_Products.xlsx" with
  | Normal file => Normal (saveFile file w)
  | Throw e => Throw e
  end.

(** [onClick={exportToExcel}]: an exception thrown by the handler is not
    caught by the component; no setter has run, the state is as it was. *)
Definition clickExport (v : Version) (w : World) : World :=
  match exportToExcel v w with
  | Normal w' => w'
  | Throw _ => w
  end.

Arguments clickExport : simpl never.

(** *** Events *)

Inductive Event : Type :=
| ChangeSearch (value : string)     (* typing in the search box *)
| ChangeBrand (value : string)      (* choosing in the brand selector *)
| ChangeCategory (value : string)   (* choosing in the category selector *)
| ClickApply
| ClickReset
| ClickExport
| ClickExportThrows                 (* Export, and the library cannot save *)
| FetchSettled.                     (* the request in flight is answered *)

(** The event handler proper.  [AppAuto] renders no Apply button.  A
    [fetchProducts] that throws after the [await] rejects its promise, which
    nobody observes: the state is as it was.  Whether the library manages to
    serialise and save is for the environment to say: [ClickExport] is a
    click at which nothing but the data can make [XLSX.writeFile] throw,
    [ClickExportThrows] a click at which it throws whatever the data. *)
Definition handle (v : Version) (ev : Event) (w : World) : World :=
  match ev with
  | ChangeSearch value => onApp (setSearch value) w
  | ChangeBrand value => onApp (setSelectedBrand value) w
  | ChangeCategory value => onApp (setSelectedCategory value) w
  | ClickApply =>
      match v with
      | AppAuto => w
      | AppApply | Part000 => onApp applyFilters w
      end
  | ClickReset => onApp resetFilters w
  | ClickExport => clickExport v w
  | ClickExportThrows => w
  | FetchSettled =>
      match pending w with
      | None => w
      | Some r =>
          match fetchProducts_resume v r (setPending None w) with
          | Normal w' => w'
          | Throw _ => setPending None w
          end
      end
  end.

(** [useEffect(() => { applyFilters() },
               [selectedBrand, selectedCategory, search, products])]:
    the effect runs after a render in which one of the deps differs from the
    previous render. *)
Definition depsChanged (old new : World) : bool :=
  negb (String.eqb (selectedBrand (app old)) (selectedBrand (app new)))
  || negb (String.eqb (selectedCategory (app old)) (selectedCategory (app new)))
  || negb (String.eqb (search (app old)) (search (app new)))
  || negb (Nat.eqb (productsRef old) (productsRef new)).

Definition runEffects (v : Version) (old new : World) : World :=
  match v with
  | AppAuto => if depsChanged old new then onApp applyFilters new else new
  | AppApply | Part000 => new
  end.

Definition step (v : Version) (ev : Event) (w : World) : World :=
  runEffects v w (handle v ev w).

(** Mounting: every effect runs once, in declaration order. *)
Definition mount (v : Version) (r : Response) : World :=
  let w := fetchProducts_request r initialWorld in
  match v with
  | AppAuto => onApp applyFilters w
  | AppApply | Part000 => w
  end.

Definition run (v : Version) (r : Response) (evs : list Event) : World :=
  fold_left (fun w ev => step v ev w) evs (mount v r).

(** The products of the scenario of the specification. *)
Definition widgetA : Product :=
  {| id := 1; name := "Widget A"; category := "Tools"; brand := "Acme";
     price := 999 # 100 |}.

Definition gadgetB : Product :=
  {| id := 2; name := "Gadget B"; category := "Electronics"; brand := "Zeta";
     price := 195 # 10 |}.

Definition scenario : list Product := [widgetA; gadgetB].

(** ** Notions used in the statements *)

(** [t] occurs in [s]: the meaning of "is a substring of". *)
Definition Substring (t s : string) : Prop :=
  exists a b : string, s = (a ++ t ++ b)%string.

(** [s] consists of white space only (the empty string included). *)
Definition onlyWhiteSpace (s : string) : bool :=
  forallb Js.isWhiteSpace (list_ascii_of_string s).

(** The conjunction of the active predicates. *)
Definition keeps (selectedBrand selectedCategory search : string)
    (p : Product) : bool :=
  (negb (Js.truthy selectedBrand) || String.eqb (brand p) selectedBrand)
  && (negb (Js.truthy selectedCategory)
      || String.eqb (category p) selectedCategory)
  && (negb (Js.truthy (Js.trim search))
      || matchesText (Js.toLowerCase search) p).

(** The conjunctive filtering property with the text predicate switched off
    only by the empty query. *)
Definition conjunctiveOnEmptyQuery (all : list Product) (b c q : string)
    (p : Product) : Prop :=
  In p (filterProducts all b c q) <->
  In p all /\
  (b = "" \/ brand p = b) /\
  (c = "" \/ category p = c) /\
  (q = ""
   \/ Substring (Js.toLowerCase q) (Js.toLowerCase (name p))
   \/ Substring (Js.toLowerCase q) (Js.toLowerCase (brand p))
   \/ Substring (Js.toLowerCase q) (Js.toLowerCase (category p))).

(** [p] stands before [q] in [l]. *)
Definition precedes {A : Type} (p q : A) (l : list A) : Prop :=
  exists l1 l2 l3 : list A, l = l1 ++ p :: l2 ++ q :: l3.

(** The output is the input with some elements struck out. *)
Inductive Subsequence {A : Type} : list A -> list A -> Prop :=
| Subsequence_nil : Subsequence [] []
| Subsequence_keep x l l' : Subsequence l l' -> Subsequence (x :: l) (x :: l')
| Subsequence_drop x l l' : Subsequence l l' -> Subsequence l (x :: l').

Definition Product_eq_dec (p q : Product) : {p = q} + {p <> q}.
Proof.
  decide equality;
    first [ apply string_dec | apply Z.eq_dec
          | decide equality; first [ apply Pos.eq_dec | apply Z.eq_dec ] ].
Defined.

(** The unique values of a list in first-occurrence order, duplicates
    collapsed, written by recursion on the list: the head, then the distinct
    values of the tail other than the head. *)
Fixpoint firstOccurrences (l : list string) : list string :=
  match l with
  | [] => []
  | x :: l' => x :: filter (fun y => negb (String.eqb y x)) (firstOccurrences l')
  end.

Definition errorResponse (d : option (list Product)) (message : string)
  : Response :=
  {| data := d; error := Some message |}.

Definition successResponse (d : list Product) : Response :=
  {| data := Some d; error := None |}.

(** The first argument of the [console.error] call of each version. *)
Definition diagnosticLabel (v : Version) : string :=
  match v with
  | AppAuto | AppApply => "Error fetching:"
  | Part000 => "Error fetching data:"
  end.

(** What a failed load leaves behind along a whole run. *)
Definition failedLoadInvariant (v : Version) (message : string) (w : World)
  : Prop :=
  products (app w) = [] /\ brands (app w) = [] /\ categories (app w) = [] /\
  requests w = 1 /\
  ((exists d, pending w = Some (errorResponse d message)) /\ console w = []
   \/ pending w = None /\ console w = [[diagnosticLabel v; message]]).

(** The load has not been answered yet / has been answered with [d]. *)
Definition Waiting (d : list Product) (w : World) : Prop :=
  pending w = Some (successResponse d) /\ requests w = 1 /\
  products (app w) = [] /\ brands (app w) = [] /\ categories (app w) = [].

Definition Loaded (d : list Product) (w : World) : Prop :=
  pending w = None /\ requests w = 1 /\
  products (app w) = d /\
  brands (app w) = firstOccurrences (map brand d) /\
  categories (app w) = firstOccurrences (map category d).

Definition Event_eq_dec (e1 e2 : Event) : {e1 = e2} + {e1 <> e2}.
Proof.
  decide equality; apply string_dec.
Defined.

(** The visible subset is what the Filter Engine gives for the current
    product list and the current filter fields. *)
Definition visibleIsCurrent (w : World) : Prop :=
  filtered (app w)
  = filterProducts (products (app w)) (selectedBrand (app w))
      (selectedCategory (app w)) (search (app w)).

Definition visibleIsCurrentb (w : World) : bool :=
  if list_eq_dec Product_eq_dec (filtered (app w))
       (filterProducts (products (app w)) (selectedBrand (app w))
          (selectedCategory (app w)) (search (app w)))
  then true else false.

(** ** The rendered view *)

(** The [<option>] elements of a selector, as (value, label): the "all"
    option with the empty value, then one option per entry of the list. *)
Definition brandOptions (st : AppState) : list (string * string) :=
  ("", "All Brands") :: map (fun b => (b, b)) (brands st).

Definition categoryOptions (st : AppState) : list (string * string) :=
  ("", "All Categories") :: map (fun c => (c, c)) (categories st).

(** [src/App.tsx], first component: the numbers of
    "Showing {filtered.length} of {products.length} products" and of the
    label of the export button. *)
Definition resultsCount (st : AppState) : nat * nat :=
  (List.length (filtered st), List.length (products st)).

Definition exportLabelCount (st : AppState) : nat :=
  List.length (filtered st).

(** [{filtered.length === 0 && products.length > 0 && (...)}]: the message
    "No products match your current filters." *)
Definition noMatchShown (st : AppState) : bool :=
  Nat.eqb (List.length (filtered st)) 0
  && Nat.ltb 0 (List.length (products st)).

(** [{products.length === 0 && (...)}]: the message "Loading products..." *)
Definition loadingShown (st : AppState) : bool :=
  Nat.eqb (List.length (products st)) 0.

(** [unnamed/part_000]: [{filtered.length === 0 && (...)}], the table row
    "No results found". *)
Definition noResultsRowShown (st : AppState) : bool :=
  Nat.eqb (List.length (filtered st)) 0.

(** ** Further notions used in the statements *)

(** A click on Apply after every event. *)
Definition withApply (evs : list Event) : list Event :=
  flat_map (fun ev => [ev; ClickApply]) evs.

(** The file one export saves, for the visible list [visible]. *)
Definition exportedFile (v : Version) (visible : list Product) : File :=
  {| fileName := "Filtered_Products.xlsx";
     workbook := [(sheetName v, json_to_sheet (map toObject visible))] |}.

(** What holds of the derived lists in every state of a run. *)
Definition derivedSetsInvariant (w : World) : Prop :=
  brands (app w) = firstOccurrences (map brand (products (app w))) /\
  categories (app w) = firstOccurrences (map category (products (app w))).

(** The requests and diagnostics of a run whose request is answered by [r]. *)
Definition trafficInvariant (v : Version) (r : Response) (w : World) : Prop :=
  requests w = 1 /\
  (pending w = Some r /\ console w = []
   \/ pending w = None /\
      (console w = []
       \/ exists message, error r = Some message /\
                          console w = [[diagnosticLabel v; message]])).

(** Before the load is answered. *)
Definition nothingLoaded (r : Response) (w : World) : Prop :=
  pending w = Some r /\ products (app w) = [] /\ filtered (app w) = [].

(** The answer brings no product: an error, no data, or an empty list. *)
Definition bringsNoProduct (r : Response) : bool :=
  match error r, data r with
  | Some _, _ => true
  | None, None => true
  | None, Some [] => true
  | None, Some (_ :: _) => false
  end.

(** An answer with neither data nor error. *)
Definition noAnswer : Response := {| data := None; error := None |}.

(** ** Notions used in the statements about the export *)

(** The sheet built from the visible list can be serialised. *)
Definition exportFits (visible : list Product) : bool :=
  sheetFits (json_to_sheet (map toObject visible)).

(** The object [o] has exactly the keys [K], each once (in any order). *)
Definition sameKeys (K : list string) (o : JsObject) : Prop :=
  NoDup (map fst o) /\ forall k, In k (map fst o) <-> In k K.

(** The export property with a header of the five fields for every visible
    list, the empty one included. *)
Definition exportAlwaysWithHeader (v : Version) (w : World) : Prop :=
  exists ws : Sheet,
    downloads (step v ClickExport w)
    = downloads w
      ++ [ {| fileName := "Filtered_Products.xlsx";
              workbook := [(sheetName v, ws)] |} ] /\
    (forall k, In k productColumns -> In k (headerRow ws)) /\
    List.length (dataRows ws) = List.length (filtered (app w)).

(** A string of [n] times the character [c]. *)
Fixpoint repeatChar (c : ascii) (n : nat) : string :=
  match n with
  | O => EmptyString
  | S n' => String c (repeatChar c n')
  end.

(** A product whose name is one character too long for a cell. *)
Definition longNamed : Product :=
  {| id := 3; name := repeatChar "x" (S maxTextLength); category := "Tools";
     brand := "Acme"; price := 1 # 1 |}.

(** What holds of the two messages of the first component of [src/App.tsx]
    in a state [st]: never both; no product listed exactly when one of them
    is shown; "Loading products..." exactly when no product is loaded. *)
Definition emptyStatesCoherent (st : AppState) : Prop :=
  noMatchShown st && loadingShown st = false /\
  (filtered st = [] <-> noMatchShown st = true \/ loadingShown st = true) /\
  (loadingShown st = true <-> products st = []).

(** ** The scenario of the specification *)

Example scenario_textQuery :
  filterProducts scenario "" "" "widget" = [widgetA].
Proof. reflexivity. Qed.

Example scenario_brandFilter :
  filterProducts scenario "Zeta" "" "" = [gadgetB].
Proof. reflexivity. Qed.

Example scenario_conjunction :
  filterProducts scenario "" "Tools" "gadget" = [].
Proof. reflexivity. Qed.

Example scenario_reset :
  filtered (applyFilters (resetFilters
    (setSearch "gadget" (setProducts scenario initialState)))) = scenario.
Proof. reflexivity. Qed.

(** Mounting each version on the scenario, typing "gadget" while the load is
    in flight, then the answer: the effect re-applies the filters, the
    versions with a button show the full list until Apply is clicked. *)
Example scenario_run_AppAuto :
  filtered (app (run AppAuto (successResponse scenario)
                   [ChangeSearch "gadget"; FetchSettled])) = [gadgetB].
Proof. reflexivity. Qed.

Example scenario_run_Part000 :
  filtered (app (run Part000 (successResponse scenario)
                   [ChangeSearch "gadget"; FetchSettled])) = scenario /\
  filtered (app (run Part000 (successResponse scenario)
                   [ChangeSearch "gadget"; FetchSettled; ClickApply]))
  = [gadgetB].
Proof. split; reflexivity. Qed.

Example scenario_run_brands :
  brands (app (run AppApply (successResponse (scenario ++ scenario))
                 [FetchSettled])) = ["Acme"; "Zeta"] /\
  categories (app (run AppApply (successResponse (scenario ++ scenario))
                     [FetchSettled])) = ["Tools"; "Electronics"].
Proof. split; reflexivity. Qed.

Example scenario_run_error :
  console (run Part000 (errorResponse None "timeout") [FetchSettled])
  = [["Error fetching data:"; "timeout"]] /\
  products (app (run Part000 (errorResponse None "timeout") [FetchSettled]))
  = [].
Proof. split; reflexivity. Qed.

(** An answer with neither data nor error: the first two versions skip both
    branches, [part_000] throws on [productList.map]; no state is written. *)
Example scenario_run_no_data :
  app (run AppApply {| data := None; error := None |} [FetchSettled])
  = initialState /\
  app (run Part000 {| data := None; error := None |} [FetchSettled])
  = initialState /\
  fetchProducts_resume Part000 {| data := None; error := None |} initialWorld
  = Throw "TypeError: productList is null".
Proof. repeat split. Qed.

(** ** Facts about the JavaScript primitives *)

Example toLowerCase_example : Js.toLowerCase "Widget A" = "widget a".
Proof. reflexivity. Qed.

Example trim_example : Js.trim "  Gadget B  " = "Gadget B".
Proof. reflexivity. Qed.

Example includes_example :
  Js.includes "widget a" "get" = true /\ Js.includes "widget a" "" = true /\
  Js.includes "widget a" "gadget" = false.
Proof. repeat split. Qed.

Lemma truthy_false_iff (s : string) : Js.truthy s = false <-> s = "".
Proof.
  destruct s; simpl; split; intro H; try reflexivity; discriminate.
Qed.

Lemma truthy_true_iff (s : string) : Js.truthy s = true <-> s <> "".
Proof.
  destruct s; simpl; split; intro H; try reflexivity; try discriminate.
  now elim H.
Qed.

Lemma prefix_spec (t s : string) :
  String.prefix t s = true <-> exists b, s = (t ++ b)%string.
Proof.
  revert s; induction t as [|c t IH]; intros s.
  - split; [intros _; now exists s | intros _; now destruct s].
  - destruct s as [|d s]; simpl.
    + split; [discriminate | intros [b Hb]; discriminate].
    + destruct (ascii_dec c d) as [->|Hne].
      * rewrite IH. split; intros [b Hb]; exists b.
        -- now rewrite Hb.
        -- now injection Hb.
      * split; [discriminate|].
        intros [b Hb]. injection Hb as Hd _. now elim Hne.
Qed.

Lemma includes_spec (s t : string) :
  Js.includes s t = true <-> Substring t s.
Proof.
  unfold Substring. induction s as [|c s IH].
  - change (Js.includes "" t) with (String.prefix t "" || false).
    rewrite orb_false_r, prefix_spec. split.
    + intros [b Hb]. now exists "", b.
    + intros [a [b Hab]]. destruct a; simpl in Hab.
      * now exists b.
      * discriminate.
  - change (Js.includes (String c s) t)
      with (String.prefix t (String c s) || Js.includes s t).
    rewrite orb_true_iff, prefix_spec, IH. split.
    + intros [[b Hb]|[a [b Hab]]].
      * now exists "", b.
      * exists (String c a), b. simpl. now rewrite Hab.
    + intros [a [b Hab]]. destruct a as [|d a]; simpl in Hab.
      * left. now exists b.
      * right. injection Hab as _ Hs. now exists a, b.
Qed.

Lemma trimEnd_empty_iff (s : string) :
  Js.trimEnd s = "" <-> onlyWhiteSpace s = true.
Proof.
  unfold onlyWhiteSpace. induction s as [|c s IH]; simpl.
  - split; reflexivity.
  - rewrite andb_true_iff, <- IH.
    destruct (Js.trimEnd s) eqn:Et; destruct (Js.isWhiteSpace c); split;
      intro H; try reflexivity; try discriminate; try (now split);
      destruct H as [H1 H2]; discriminate.
Qed.

Lemma trimStart_onlyWhiteSpace (s : string) :
  onlyWhiteSpace (Js.trimStart s) = onlyWhiteSpace s.
Proof.
  unfold onlyWhiteSpace. induction s as [|c s IH]; simpl; [reflexivity|].
  destruct (Js.isWhiteSpace c) eqn:Ec; simpl.
  - exact IH.
  - now rewrite Ec.
Qed.

(** The trimmed string is empty exactly for the strings made of white space. *)
Lemma trim_empty_iff (s : string) :
  Js.trim s = "" <-> onlyWhiteSpace s = true.
Proof.
  unfold Js.trim. now rewrite trimEnd_empty_iff, trimStart_onlyWhiteSpace.
Qed.

Lemma trim_empty_string : Js.trim "" = "".
Proof. reflexivity. Qed.

(** ** The Filter Engine as one filter *)

Lemma filter_filter {A : Type} (f g : A -> bool) (l : list A) :
  filter g (filter f l) = filter (fun x => f x && g x) l.
Proof.
  induction l as [|x l IH]; simpl; [reflexivity|].
  destruct (f x); simpl; [destruct (g x)|]; now rewrite IH.
Qed.

Lemma filter_true {A : Type} (l : list A) : filter (fun _ => true) l = l.
Proof.
  induction l as [|x l IH]; simpl; now rewrite ?IH.
Qed.

Lemma filterProducts_filter (all : list Product) (b c q : string) :
  filterProducts all b c q = filter (keeps b c q) all.
Proof.
  unfold filterProducts, keeps.
  destruct (Js.truthy b), (Js.truthy c), (Js.truthy (Js.trim q)); simpl;
    rewrite ?filter_filter;
    first [ symmetry; apply filter_true
          | apply filter_ext; intros a;
            rewrite ?andb_true_r, ?andb_assoc; reflexivity ].
Qed.

Lemma In_filterProducts (all : list Product) (b c q : string) (p : Product) :
  In p (filterProducts all b c q) <-> In p all /\ keeps b c q p = true.
Proof.
  rewrite filterProducts_filter. apply filter_In.
Qed.

Lemma keeps_spec (b c q : string) (p : Product) :
  keeps b c q p = true <->
  (b = "" \/ brand p = b) /\
  (c = "" \/ category p = c) /\
  (Js.trim q = ""
   \/ Substring (Js.toLowerCase q) (Js.toLowerCase (name p))
   \/ Substring (Js.toLowerCase q) (Js.toLowerCase (brand p))
   \/ Substring (Js.toLowerCase q) (Js.toLowerCase (category p))).
Proof.
  unfold keeps, matchesText.
  rewrite !andb_true_iff, !orb_true_iff, !negb_true_iff, !truthy_false_iff,
    !String.eqb_eq, !includes_spec.
  tauto.
Qed.

(** ** Properties of the Filter Engine *)

(** C1, as stated, fails: for the query made of two spaces the text
    predicate is off ([search.trim()] is empty), so "Widget A" is kept
    although the query is neither empty nor a substring of any of its
    lower-cased fields. *)
Lemma conjunctive_filtering_whitespace_query :
  ~ conjunctiveOnEmptyQuery scenario "" "" "  " widgetA.
Proof.
  unfold conjunctiveOnEmptyQuery. intros [H _].
  assert (Hin : In widgetA (filterProducts scenario "" "" "  "))
    by (simpl; auto).
  destruct (H Hin) as (_ & _ & _ & [Hq|[Hs|[Hs|Hs]]]);
    [discriminate | | |]; apply includes_spec in Hs; discriminate.
Qed.

(** C1 (amended): a product appears in the output of the Filter Engine iff
    it is in the input list and (the brand filter is empty or equals its
    brand exactly) and (the category filter is empty or equals its category
    exactly) and (the text query trimmed is empty, or the lower-cased query
    is a substring of its lower-cased name, brand or category). *)
Theorem conjunctive_filtering (all : list Product) (b c q : string)
    (p : Product) :
  In p (filterProducts all b c q) <->
  In p all /\
  (b = "" \/ brand p = b) /\
  (c = "" \/ category p = c) /\
  (Js.trim q = ""
   \/ Substring (Js.toLowerCase q) (Js.toLowerCase (name p))
   \/ Substring (Js.toLowerCase q) (Js.toLowerCase (brand p))
   \/ Substring (Js.toLowerCase q) (Js.toLowerCase (category p))).
Proof.
  rewrite In_filterProducts, keeps_spec. tauto.
Qed.

(** Exact matching is case-sensitive: no normalisation of the brand. *)
Example brand_filter_case_sensitive :
  filterProducts scenario "zeta" "" "" = [].
Proof. reflexivity. Qed.

(** C4: the Filter Engine applied to the reset FilterState returns the full
    product list, in order and content, whatever the state before the
    reset. *)
Theorem reset_then_filter_is_identity :
  (forall all : list Product, filterProducts all "" "" "" = all) /\
  (forall st : AppState,
     filtered (applyFilters (resetFilters st)) = products st) /\
  (forall st : AppState,
     selectedBrand (resetFilters st) = "" /\
     selectedCategory (resetFilters st) = "" /\
     search (resetFilters st) = "" /\
     products (resetFilters st) = products st).
Proof.
  split; [|split]; intros; try reflexivity.
  repeat split.
Qed.

Lemma precedes_filter {A : Type} (f : A -> bool) (p q : A) (l : list A) :
  precedes p q l -> f p = true -> f q = true -> precedes p q (filter f l).
Proof.
  intros (l1 & l2 & l3 & ->) Hp Hq.
  exists (filter f l1), (filter f l2), (filter f l3).
  rewrite filter_app. simpl. rewrite Hp, filter_app. simpl. now rewrite Hq.
Qed.

Lemma filter_Subsequence {A : Type} (f : A -> bool) (l : list A) :
  Subsequence (filter f l) l.
Proof.
  induction l as [|x l IH]; simpl; [constructor|].
  destruct (f x); now constructor.
Qed.

Lemma filterProducts_Subsequence (all : list Product) (b c q : string) :
  Subsequence (filterProducts all b c q) all.
Proof.
  rewrite filterProducts_filter. apply filter_Subsequence.
Qed.

(** C6: if [p] precedes [q] in the input and both appear in the output, then
    [p] precedes [q] in the output. *)
Theorem order_preservation (all : list Product) (b c s : string)
    (p q : Product) :
  precedes p q all ->
  In p (filterProducts all b c s) ->
  In q (filterProducts all b c s) ->
  precedes p q (filterProducts all b c s).
Proof.
  rewrite filterProducts_filter, !filter_In.
  intros Hpq [_ Hp] [_ Hq]. now apply precedes_filter.
Qed.

(** C6 on the scenario: both products survive the query "t", in order. *)
Lemma order_preservation_witness :
  precedes widgetA gadgetB (filterProducts scenario "" "" "t").
Proof.
  apply (order_preservation scenario "" "" "t" widgetA gadgetB).
  - exists [], [], []. reflexivity.
  - simpl. auto.
  - simpl. auto.
Defined.

Lemma count_occ_filter_le {A : Type} (dec : forall x y : A, {x = y} + {x <> y})
    (f : A -> bool) (l : list A) (a : A) :
  count_occ dec (filter f l) a <= count_occ dec l a.
Proof.
  induction l as [|x l IH]; simpl; [lia|].
  destruct (f x); simpl; destruct (dec x a); lia.
Qed.

(** C7: every element of the output is an element of the input (as a
    record, and so by id): nothing is added, nothing occurs more often than
    in the input, and the output is the input with elements struck out. *)
Theorem output_subset_of_input (all : list Product) (b c q : string) :
  (forall p, In p (filterProducts all b c q) -> In p all) /\
  (forall i, In i (map id (filterProducts all b c q)) -> In i (map id all)) /\
  (forall p, count_occ Product_eq_dec (filterProducts all b c q) p
             <= count_occ Product_eq_dec all p) /\
  List.length (filterProducts all b c q) <= List.length all /\
  Subsequence (filterProducts all b c q) all.
Proof.
  rewrite filterProducts_filter. repeat split.
  - intros p Hp. now apply filter_In in Hp.
  - intros i Hi. apply in_map_iff in Hi as (p & <- & Hp).
    apply in_map. now apply filter_In in Hp.
  - intros p. apply count_occ_filter_le.
  - apply filter_length_le.
  - apply filter_Subsequence.
Qed.

(** C9: when the trimmed query is not empty the text predicate searches for
    the lower-cased query as typed, white space included; a query made of
    white space only switches the text predicate off. *)
Theorem text_query_untrimmed (all : list Product) (b c q : string) :
  (Js.trim q <> "" ->
   forall p, In p (filterProducts all b c q) <->
             In p (filterProducts all b c "") /\
             (Substring (Js.toLowerCase q) (Js.toLowerCase (name p))
              \/ Substring (Js.toLowerCase q) (Js.toLowerCase (brand p))
              \/ Substring (Js.toLowerCase q) (Js.toLowerCase (category p)))) /\
  (Js.trim q <> "" ->
   filterProducts all b c q
   = filter (matchesText (Js.toLowerCase q)) (filterProducts all b c "")) /\
  (onlyWhiteSpace q = true ->
   filterProducts all b c q = filterProducts all b c "") /\
  (filterProducts scenario "" "" "widget" = [widgetA] /\
   filterProducts scenario "" "" " widget" = []).
Proof.
  split; [|split; [|split]].
  - intros Hq p. rewrite !In_filterProducts, !keeps_spec.
    rewrite trim_empty_string. tauto.
  - intros Hq. apply truthy_true_iff in Hq.
    unfold filterProducts. now rewrite Hq.
  - intros Hq. apply trim_empty_iff in Hq.
    unfold filterProducts. now rewrite Hq.
  - split; reflexivity.
Qed.

(** ** Distinct values in first-occurrence order *)

Lemma existsb_eqb_In (x : string) (l : list string) :
  existsb (String.eqb x) l = true <-> In x l.
Proof.
  rewrite existsb_exists. split.
  - intros (y & Hy & Hxy). apply String.eqb_eq in Hxy. now subst.
  - intros Hx. exists x. split; [assumption | apply String.eqb_refl].
Qed.

Lemma existsb_eqb_app (x : string) (l1 l2 : list string) :
  existsb (String.eqb x) (l1 ++ l2)
  = existsb (String.eqb x) l1 || existsb (String.eqb x) l2.
Proof. apply existsb_app. Qed.

(** The set built from [xs] on top of the values [acc] already inserted. *)
Lemma fold_Set_add (xs acc : list string) :
  fold_left Js.Set_add xs acc
  = acc ++ filter (fun y => negb (existsb (String.eqb y) acc))
             (firstOccurrences xs).
Proof.
  revert acc. induction xs as [|x xs IH]; intros acc; simpl.
  - now rewrite app_nil_r.
  - unfold Js.Set_add at 2.
    destruct (existsb (String.eqb x) acc) eqn:Ex; simpl; rewrite IH.
    + f_equal. rewrite filter_filter. apply filter_ext. intros y.
      destruct (String.eqb_spec y x) as [->|Hne]; simpl.
      * now rewrite Ex.
      * reflexivity.
    + rewrite <- app_assoc. simpl. do 2 f_equal.
      rewrite filter_filter. apply filter_ext. intros y.
      rewrite existsb_eqb_app. simpl. rewrite orb_false_r, negb_orb.
      apply andb_comm.
Qed.

(** [Array.from(new Set(xs))] is the list of first occurrences of [xs]. *)
Lemma Set_new_firstOccurrences (xs : list string) :
  Js.Array_from (Js.Set_new xs) = firstOccurrences xs.
Proof.
  unfold Js.Array_from, Js.Set_new. rewrite fold_Set_add. simpl.
  apply filter_true.
Qed.

Lemma firstOccurrences_In (l : list string) (x : string) :
  In x (firstOccurrences l) <-> In x l.
Proof.
  induction l as [|y l IH]; simpl; [tauto|].
  rewrite filter_In, IH, negb_true_iff, String.eqb_neq.
  destruct (string_dec y x) as [->|Hne]; [tauto|].
  split; [tauto|]. intros [H|H]; [tauto|]. right. split; congruence.
Qed.

Lemma NoDup_filter {A : Type} (f : A -> bool) (l : list A) :
  NoDup l -> NoDup (filter f l).
Proof.
  induction 1 as [|x l Hx Hl IH]; simpl; [constructor|].
  destruct (f x); [|assumption].
  constructor; [|assumption]. intros Hin. apply filter_In in Hin. tauto.
Qed.

Lemma firstOccurrences_NoDup (l : list string) : NoDup (firstOccurrences l).
Proof.
  induction l as [|y l IH]; simpl; constructor.
  - intros Hin. apply filter_In in Hin as [_ Hin].
    now rewrite String.eqb_refl in Hin.
  - now apply NoDup_filter.
Qed.

Lemma firstOccurrences_app (l1 l2 : list string) :
  firstOccurrences (l1 ++ l2)
  = firstOccurrences l1
    ++ filter (fun y => negb (existsb (String.eqb y) (firstOccurrences l1)))
         (firstOccurrences l2).
Proof.
  rewrite <- (Set_new_firstOccurrences (l1 ++ l2)).
  unfold Js.Array_from, Js.Set_new. rewrite fold_left_app, fold_Set_add.
  change (fold_left Js.Set_add l1 []) with (Js.Array_from (Js.Set_new l1)).
  now rewrite Set_new_firstOccurrences.
Qed.

(** First-occurrence order: where [x] occurs for the first time in [l], the
    distinct values before it are those of the part of [l] before it. *)
Lemma firstOccurrences_order (l1 l2 : list string) (x : string) :
  ~ In x l1 ->
  exists rest, firstOccurrences (l1 ++ x :: l2)
               = firstOccurrences l1 ++ x :: rest.
Proof.
  intros Hx. rewrite firstOccurrences_app. simpl.
  destruct (existsb (String.eqb x) (firstOccurrences l1)) eqn:Ex.
  - apply -> existsb_eqb_In in Ex. apply -> firstOccurrences_In in Ex.
    now elim Hx.
  - simpl. eexists. reflexivity.
Qed.

Example firstOccurrences_example :
  Js.Array_from (Js.Set_new ["Acme"; "Zeta"; "Acme"; "Beta"; "Zeta"])
  = ["Acme"; "Zeta"; "Beta"].
Proof. reflexivity. Qed.

(** ** Running the component *)

Lemma depsChanged_false (old new : World) :
  selectedBrand (app new) = selectedBrand (app old) ->
  selectedCategory (app new) = selectedCategory (app old) ->
  search (app new) = search (app old) ->
  productsRef new = productsRef old ->
  depsChanged old new = false.
Proof.
  unfold depsChanged. intros -> -> -> ->.
  now rewrite !String.eqb_refl, Nat.eqb_refl.
Qed.

(** The effect writes [filtered] and nothing else. *)
Lemma runEffects_frame (v : Version) (old new : World) :
  products (app (runEffects v old new)) = products (app new) /\
  brands (app (runEffects v old new)) = brands (app new) /\
  categories (app (runEffects v old new)) = categories (app new) /\
  selectedBrand (app (runEffects v old new)) = selectedBrand (app new) /\
  selectedCategory (app (runEffects v old new)) = selectedCategory (app new) /\
  search (app (runEffects v old new)) = search (app new) /\
  productsRef (runEffects v old new) = productsRef new /\
  console (runEffects v old new) = console new /\
  requests (runEffects v old new) = requests new /\
  pending (runEffects v old new) = pending new /\
  downloads (runEffects v old new) = downloads new.
Proof.
  destruct v; simpl; try destruct (depsChanged old new); repeat split.
Qed.

Lemma runEffects_unchanged (v : Version) (old new : World) :
  depsChanged old new = false -> runEffects v old new = new.
Proof.
  intros H. destruct v; simpl; now rewrite ?H.
Qed.

Lemma run_snoc (v : Version) (r : Response) (evs : list Event) (ev : Event) :
  run v r (evs ++ [ev]) = step v ev (run v r evs).
Proof.
  unfold run. now rewrite fold_left_app.
Qed.

(** Induction along a run. *)
Lemma run_invariant (P : World -> Prop) (v : Version) (r : Response) :
  P (mount v r) ->
  (forall ev w, P w -> P (step v ev w)) ->
  forall evs, P (run v r evs).
Proof.
  intros Hmount Hstep evs. induction evs as [|ev evs IH] using rev_ind.
  - exact Hmount.
  - rewrite run_snoc. now apply Hstep.
Qed.

(** ** Export *)

Lemma filter_all_false {A : Type} (f : A -> bool) (l : list A) :
  (forall x, In x l -> f x = false) -> filter f l = [].
Proof.
  induction l as [|x l IH]; simpl; intros H; [reflexivity|].
  rewrite (H x) by now left. apply IH. intros y Hy. apply H. now right.
Qed.

Lemma filter_all_true {A : Type} (f : A -> bool) (l : list A) :
  (forall x, In x l -> f x = true) -> filter f l = l.
Proof.
  induction l as [|x l IH]; simpl; intros H; [reflexivity|].
  rewrite (H x) by now left. f_equal. apply IH. intros y Hy. apply H.
  now right.
Qed.

Lemma firstOccurrences_NoDup_id (l : list string) :
  NoDup l -> firstOccurrences l = l.
Proof.
  induction 1 as [|x l Hx Hl IH]; simpl; [reflexivity|].
  rewrite IH. f_equal. apply filter_all_true.
  intros y Hy. apply negb_true_iff, String.eqb_neq. congruence.
Qed.

(** The header of a sheet: the keys of the records, first seen first. *)
Lemma headerRow_json_to_sheet (js : list JsObject) :
  headerRow (json_to_sheet js) = firstOccurrences (flat_map (map fst) js).
Proof.
  apply Set_new_firstOccurrences.
Qed.

(** Records with the same keys: the header is the key list of the first. *)
Lemma headerRow_uniform (K : list string) (o : JsObject) (js : list JsObject) :
  Forall (sameKeys K) (o :: js) ->
  headerRow (json_to_sheet (o :: js)) = map fst o.
Proof.
  intros Hall. rewrite headerRow_json_to_sheet. simpl.
  inversion Hall as [|o' js' [Hnd Hk] Hjs]; subst.
  rewrite firstOccurrences_app, (firstOccurrences_NoDup_id _ Hnd).
  rewrite filter_all_false; [apply app_nil_r|].
  intros k Hin. apply negb_false_iff, existsb_eqb_In.
  apply -> firstOccurrences_In in Hin.
  apply in_flat_map in Hin as (o2 & Ho2 & Hk2).
  rewrite Forall_forall in Hjs. destruct (Hjs o2 Ho2) as [_ Hk'].
  apply Hk, Hk'. exact Hk2.
Qed.

Lemma lookupKey_In (o : JsObject) (k : string) (c : Cell) :
  NoDup (map fst o) -> In (k, c) o -> lookupKey k o = Some c.
Proof.
  induction o as [|[k' c'] o IH]; simpl; intros Hnd Hin; [contradiction|].
  inversion Hnd as [|? ? Hk' Hnd']; subst.
  destruct Hin as [Heq|Hin].
  - injection Heq as -> ->. now rewrite String.eqb_refl.
  - destruct (String.eqb_spec k k') as [->|Hne]; [|now apply IH].
    elim Hk'. apply in_map_iff. now exists (k', c).
Qed.

Lemma dataRows_json_to_sheet (js : list JsObject) :
  dataRows (json_to_sheet js)
  = map (fun o => map (fun k => lookupKey k o) (headerRow (json_to_sheet js)))
      js.
Proof. reflexivity. Qed.

(** What [json_to_sheet] makes of records that have the same keys [K], in
    whatever order each record holds them. *)
Lemma json_to_sheet_uniform (K : list string) (js : list JsObject) :
  Forall (sameKeys K) js ->
  List.length (dataRows (json_to_sheet js)) = List.length js /\
  (js = [] -> headerRow (json_to_sheet js) = []) /\
  (js <> [] ->
   NoDup (headerRow (json_to_sheet js)) /\
   forall k, In k (headerRow (json_to_sheet js)) <-> In k K) /\
  (forall i o, nth_error js i = Some o ->
     exists row, nth_error (dataRows (json_to_sheet js)) i = Some row /\
                 List.length row = List.length (headerRow (json_to_sheet js)) /\
                 forall k c, In (k, c) o ->
                   In (k, Some c) (combine (headerRow (json_to_sheet js)) row)).
Proof.
  intros Hall. split; [|split; [|split]].
  - rewrite dataRows_json_to_sheet. apply length_map.
  - now intros ->.
  - destruct js as [|o js]; [now intros H|]. intros _.
    rewrite (headerRow_uniform K o js Hall).
    inversion Hall as [|? ? [Hnd Hk] _]; subst. now split.
  - intros i o Hi. rewrite dataRows_json_to_sheet.
    exists (map (fun k => lookupKey k o) (headerRow (json_to_sheet js))).
    split; [exact (map_nth_error _ _ _ Hi)|]. split; [apply length_map|].
    intros k c Hkc.
    assert (Ho : sameKeys K o).
    { rewrite Forall_forall in Hall. apply Hall.
      now apply nth_error_In in Hi. }
    destruct Ho as [Hnd Hk].
    assert (Hne : js <> []) by (intros ->; now destruct i).
    destruct js as [|o1 js]; [now elim Hne|].
    assert (Hin : In k (headerRow (json_to_sheet (o1 :: js)))).
    { rewrite (headerRow_uniform K o1 js Hall).
      inversion Hall as [|? ? [_ Hk1] _]; subst.
      apply Hk1, Hk. apply in_map_iff. now exists (k, c). }
    rewrite <- (lookupKey_In o k c Hnd Hkc).
    generalize (headerRow (json_to_sheet (o1 :: js))) Hin.
    clear. intros hdr. induction hdr as [|h hdr IH]; simpl; [intros []|].
    intros [->|Hin]; [now left | right; now apply IH].
Qed.

Lemma toObject_sameKeys (p : Product) : sameKeys productColumns (toObject p).
Proof.
  split; [|reflexivity].
  repeat (constructor; [simpl; intuition discriminate|]). constructor.
Qed.

Lemma clickExport_eq (v : Version) (w : World) :
  clickExport v w
  = if exportFits (filtered (app w))
    then saveFile (exportedFile v (filtered (app w))) w
    else w.
Proof.
  unfold clickExport, exportToExcel, writeFile, exportFits,
    book_append_sheet, book_new. simpl.
  rewrite andb_true_r.
  now destruct (sheetFits (json_to_sheet (map toObject (filtered (app w))))).
Qed.

Lemma step_ClickExport (v : Version) (w : World) :
  step v ClickExport w
  = if exportFits (filtered (app w))
    then saveFile (exportedFile v (filtered (app w))) w
    else w.
Proof.
  unfold step. change (handle v ClickExport w) with (clickExport v w).
  rewrite clickExport_eq.
  destruct (exportFits (filtered (app w)));
    apply runEffects_unchanged; now apply depsChanged_false.
Qed.

(** The two outcomes of a click on Export, in a goal about its handler. *)
Ltac export_cases :=
  try (rewrite !clickExport_eq; destruct (exportFits _); simpl).

Lemma step_ClickExportThrows (v : Version) (w : World) :
  step v ClickExportThrows w = w.
Proof.
  unfold step. simpl. apply runEffects_unchanged. now apply depsChanged_false.
Qed.

(** C3, as stated, fails: the records are all the library is given, so for
    an empty visible list the saved sheet has no header cell at all.  Here
    the scenario is loaded and the query "zzz" leaves no product visible. *)
Lemma export_empty_list_without_header :
  ~ exportAlwaysWithHeader AppAuto
      (run AppAuto (successResponse scenario)
         [FetchSettled; ChangeSearch "zzz"]).
Proof.
  intros (ws & Hd & Hh & _).
  rewrite step_ClickExport in Hd.
  change (filtered (app (run AppAuto (successResponse scenario)
                           [FetchSettled; ChangeSearch "zzz"])))
    with (@nil Product) in Hd.
  simpl in Hd. injection Hd as Hws. subst ws.
  destruct (Hh "id") as []. now left.
Qed.

(** The sheet the library makes of no record. *)
Example export_empty_list_sheet :
  downloads (step Part000 ClickExport initialWorld)
  = [ {| fileName := "Filtered_Products.xlsx";
         workbook := [("FilteredData",
                       {| headerRow := []; dataRows := [] |})] |} ].
Proof. reflexivity. Qed.

(** A name of 32768 characters: the library throws and nothing is saved. *)
Example export_long_text_saves_nothing :
  exportFits [longNamed] = false /\
  downloads (run Part000 (successResponse [longNamed])
               [FetchSettled; ClickExport]) = [].
Proof.
  assert (H : exportFits [longNamed] = false) by (vm_compute; reflexivity).
  split; [exact H|].
  change (run Part000 (successResponse [longNamed]) [FetchSettled; ClickExport])
    with (step Part000 ClickExport
            (run Part000 (successResponse [longNamed]) [FetchSettled])).
  rewrite step_ClickExport.
  change (filtered (app (run Part000 (successResponse [longNamed])
                           [FetchSettled]))) with [longNamed].
  now rewrite H.
Qed.

(** C3 (amended): a click on Export saves at most one document, and changes
    no state of the component.  The document has one sheet with one data row
    per visible product, in order, so as many data rows as visible products;
    for a non-empty visible list its header row holds the five product
    fields, each once, and every data row holds under each field the value
    of its product; for an empty visible list the sheet has no header cell
    and no data row.  Nothing is saved when the library throws: on a text
    cell longer than a cell can hold, or when it cannot save. *)
Theorem export_row_count (v : Version) (w : World) :
  exists ws : Sheet,
    (sheetFits ws = true ->
     downloads (step v ClickExport w)
     = downloads w
       ++ [ {| fileName := "Filtered_Products.xlsx";
               workbook := [(sheetName v, ws)] |} ]) /\
    (sheetFits ws = false -> step v ClickExport w = w) /\
    step v ClickExportThrows w = w /\
    app (step v ClickExport w) = app w /\
    List.length (dataRows ws) = List.length (filtered (app w)) /\
    (filtered (app w) <> [] ->
     NoDup (headerRow ws) /\
     forall k, In k (headerRow ws) <-> In k productColumns) /\
    (filtered (app w) = [] -> headerRow ws = [] /\ dataRows ws = []) /\
    (forall i p, nth_error (filtered (app w)) i = Some p ->
       exists row, nth_error (dataRows ws) i = Some row /\
                   List.length row = List.length (headerRow ws) /\
                   forall k c, In (k, c) (toObject p) ->
                               In (k, Some c) (combine (headerRow ws) row)).
Proof.
  exists (json_to_sheet (map toObject (filtered (app w)))).
  assert (Hall : Forall (sameKeys productColumns)
                   (map toObject (filtered (app w)))).
  { apply Forall_forall. intros o Ho.
    apply in_map_iff in Ho as (p & <- & _). apply toObject_sameKeys. }
  destruct (json_to_sheet_uniform productColumns _ Hall)
    as (Hlen & Hnil & Hcons & Hrows).
  rewrite length_map in Hlen.
  fold (exportFits (filtered (app w))).
  split; [|split; [|split; [|split; [|split; [|split; [|split]]]]]].
  - intros Hfit. now rewrite step_ClickExport, Hfit.
  - intros Hfit. now rewrite step_ClickExport, Hfit.
  - apply step_ClickExportThrows.
  - rewrite step_ClickExport. now destruct (exportFits (filtered (app w))).
  - exact Hlen.
  - intros Hne. apply Hcons. intros Hmap. apply Hne.
    now apply map_eq_nil in Hmap.
  - intros Hnil'. rewrite Hnil'. now split.
  - intros i p Hp. destruct (Hrows i (toObject p)) as (row & H1 & H2 & H3).
    + now apply map_nth_error.
    + now exists row.
Qed.

(** ** Reset *)

(** C10: a click on Reset empties the three filter fields and makes the
    visible subset the full product list; the product list, the brand and
    category lists and everything outside the component are as before. *)
Theorem reset_frame (v : Version) (w : World) :
  selectedBrand (app (step v ClickReset w)) = "" /\
  selectedCategory (app (step v ClickReset w)) = "" /\
  search (app (step v ClickReset w)) = "" /\
  filtered (app (step v ClickReset w)) = products (app w) /\
  products (app (step v ClickReset w)) = products (app w) /\
  brands (app (step v ClickReset w)) = brands (app w) /\
  categories (app (step v ClickReset w)) = categories (app w) /\
  productsRef (step v ClickReset w) = productsRef w /\
  console (step v ClickReset w) = console w /\
  requests (step v ClickReset w) = requests w /\
  pending (step v ClickReset w) = pending w /\
  downloads (step v ClickReset w) = downloads w.
Proof.
  unfold step, handle.
  destruct v; simpl;
    try destruct (depsChanged w (onApp resetFilters w)); repeat split.
Qed.

(** The same, on the state alone. *)
Lemma resetFilters_eq (st : AppState) :
  resetFilters st
  = {| products := products st; filtered := products st;
       brands := brands st; categories := categories st;
       selectedBrand := ""; selectedCategory := ""; search := "" |}.
Proof. reflexivity. Qed.

(** ** Loading *)

Lemma step_FetchSettled_error (v : Version) (w : World)
    (d : option (list Product)) (message : string) :
  step v FetchSettled (setPending (Some (errorResponse d message)) w)
  = console_error [diagnosticLabel v; message] (setPending None w).
Proof.
  unfold step, handle. destruct v; simpl;
    try rewrite depsChanged_false; reflexivity.
Qed.

Lemma failedLoadInvariant_mount (v : Version) (d : option (list Product))
    (message : string) :
  failedLoadInvariant v message (mount v (errorResponse d message)).
Proof.
  destruct v; repeat split; left; (split; [now exists d | reflexivity]).
Qed.

Lemma failedLoadInvariant_step (v : Version) (message : string) (ev : Event)
    (w : World) :
  failedLoadInvariant v message w ->
  failedLoadInvariant v message (step v ev w).
Proof.
  intros (Hp & Hb & Hc & Hr & Hpend).
  unfold failedLoadInvariant, step.
  destruct (runEffects_frame v w (handle v ev w))
    as (-> & -> & -> & _ & _ & _ & _ & -> & -> & -> & _).
  destruct ev; simpl; export_cases;
    try (destruct v; simpl; repeat split; assumption).
  destruct Hpend as [[[d Hd] Hcon]|[Hd Hcon]]; rewrite Hd.
  - destruct v; simpl; rewrite ?Hcon; repeat split; auto.
  - repeat split; auto.
Qed.

(** C5: when the read reports an error, settling the load changes no state
    field of the component (product list, brand list and category list
    included); it logs one diagnostic and sends no further request.  Along
    the whole run the three lists stay empty and the store is asked once. *)
Theorem load_failure_isolation (v : Version) (d : option (list Product))
    (message : string) :
  (forall w : World,
     let w' := step v FetchSettled
                 (setPending (Some (errorResponse d message)) w) in
     app w' = app w /\
     products (app w') = products (app w) /\
     brands (app w') = brands (app w) /\
     categories (app w') = categories (app w) /\
     console w' = console w ++ [[diagnosticLabel v; message]] /\
     requests w' = requests w /\
     pending w' = None /\
     productsRef w' = productsRef w /\
     downloads w' = downloads w) /\
  (forall evs : list Event,
     let w := run v (errorResponse d message) evs in
     products (app w) = [] /\ brands (app w) = [] /\
     categories (app w) = [] /\ requests w = 1).
Proof.
  split.
  - intros w. cbv zeta. rewrite step_FetchSettled_error. repeat split.
  - intros evs. cbv zeta.
    assert (H : failedLoadInvariant v message
                  (run v (errorResponse d message) evs)).
    { apply run_invariant.
      - apply failedLoadInvariant_mount.
      - intros ev w. apply failedLoadInvariant_step. }
    destruct H as (Hp & Hb & Hc & Hr & _). now repeat split.
Qed.

Lemma step_FetchSettled_success (v : Version) (w : World) (d : list Product) :
  handle v FetchSettled (setPending (Some (successResponse d)) w)
  = storeProducts d (setPending None w).
Proof.
  destruct v; reflexivity.
Qed.

(** Only the settled load writes the brand and category lists. *)
Lemma step_keeps_derived_sets (v : Version) (ev : Event) (w : World) :
  ev <> FetchSettled ->
  products (app (step v ev w)) = products (app w) /\
  brands (app (step v ev w)) = brands (app w) /\
  categories (app (step v ev w)) = categories (app w) /\
  requests (step v ev w) = requests w /\
  pending (step v ev w) = pending w.
Proof.
  intros Hev. unfold step.
  destruct (runEffects_frame v w (handle v ev w))
    as (-> & -> & -> & _ & _ & _ & _ & _ & -> & -> & _).
  destruct ev; try (now elim Hev); simpl; export_cases; destruct v;
    repeat split.
Qed.

Lemma step_settles (v : Version) (d : list Product) (w : World) :
  Waiting d w -> Loaded d (step v FetchSettled w).
Proof.
  intros (Hpend & Hreq & _). unfold Loaded, step.
  destruct (runEffects_frame v w (handle v FetchSettled w))
    as (-> & -> & -> & _ & _ & _ & _ & _ & -> & -> & _).
  unfold handle. rewrite Hpend.
  destruct v; simpl; rewrite <- !Set_new_firstOccurrences; now repeat split.
Qed.

Lemma step_Loaded (v : Version) (d : list Product) (ev : Event) (w : World) :
  Loaded d w -> Loaded d (step v ev w).
Proof.
  intros (Hpend & Hreq & Hp & Hb & Hc).
  assert (Hev : ev = FetchSettled \/ ev <> FetchSettled)
    by (destruct ev; (now left) || (right; discriminate)).
  destruct Hev as [->|Hev].
  2:{ destruct (step_keeps_derived_sets v ev w Hev)
        as (H1 & H2 & H3 & H4 & H5).
      unfold Loaded. now rewrite H1, H2, H3, H4, H5. }
  unfold Loaded, step.
  destruct (runEffects_frame v w (handle v FetchSettled w))
    as (-> & -> & -> & _ & _ & _ & _ & _ & -> & -> & _).
  unfold handle. rewrite Hpend. now repeat split.
Qed.

Lemma step_Waiting (v : Version) (d : list Product) (ev : Event) (w : World) :
  ev <> FetchSettled -> Waiting d w -> Waiting d (step v ev w).
Proof.
  intros Hev (Hpend & Hreq & Hp & Hb & Hc).
  destruct (step_keeps_derived_sets v ev w Hev) as (H1 & H2 & H3 & H4 & H5).
  unfold Waiting. now rewrite H1, H2, H3, H4, H5.
Qed.

Lemma run_Waiting_or_Loaded (v : Version) (d : list Product)
    (evs : list Event) :
  (In FetchSettled evs -> Loaded d (run v (successResponse d) evs)) /\
  (~ In FetchSettled evs -> Waiting d (run v (successResponse d) evs)).
Proof.
  induction evs as [|ev evs [IHin IHout]] using rev_ind.
  - split; [intros []|]. intros _. destruct v; now repeat split.
  - rewrite run_snoc. split.
    + intros Hin. apply in_app_or in Hin.
      destruct (in_dec Event_eq_dec FetchSettled evs) as [Hevs|Hevs].
      * apply step_Loaded. now apply IHin.
      * destruct Hin as [Hin|[Hev|[]]]; [contradiction|]. subst ev.
        apply step_settles. now apply IHout.
    + intros Hnot. apply step_Waiting.
      * intros ->. apply Hnot, in_or_app. right. now left.
      * apply IHout. intros Hin. apply Hnot, in_or_app. now left.
Qed.

(** C8: when the settled load succeeds with the list [d], the brand and
    category lists become the unique brands and categories of [d] in
    first-occurrence order, duplicates collapsed; no other event writes
    them, and along a run the store is asked once, so they are computed
    once, when the load settles. *)
Theorem derived_sets_on_load (v : Version) (d : list Product) :
  (forall w : World,
     let w' := step v FetchSettled
                 (setPending (Some (successResponse d)) w) in
     products (app w') = d /\
     brands (app w') = firstOccurrences (map brand d) /\
     categories (app w') = firstOccurrences (map category d) /\
     NoDup (brands (app w')) /\ NoDup (categories (app w')) /\
     (forall x, In x (brands (app w')) <-> exists p, In p d /\ brand p = x) /\
     (forall x, In x (categories (app w'))
                <-> exists p, In p d /\ category p = x)) /\
  (forall (ev : Event) (w : World),
     ev <> FetchSettled ->
     brands (app (step v ev w)) = brands (app w) /\
     categories (app (step v ev w)) = categories (app w)) /\
  (forall evs : list Event,
     let w := run v (successResponse d) evs in
     requests w = 1 /\
     (In FetchSettled evs ->
      brands (app w) = firstOccurrences (map brand d) /\
      categories (app w) = firstOccurrences (map category d)) /\
     (~ In FetchSettled evs ->
      brands (app w) = [] /\ categories (app w) = [])).
Proof.
  split; [|split].
  - intros w. cbv zeta. unfold step.
    destruct (runEffects_frame v
                (setPending (Some (successResponse d)) w)
                (handle v FetchSettled
                   (setPending (Some (successResponse d)) w)))
      as (-> & -> & -> & _).
    rewrite step_FetchSettled_success. simpl.
    rewrite !Set_new_firstOccurrences.
    split; [reflexivity|]. split; [reflexivity|]. split; [reflexivity|].
    split; [apply firstOccurrences_NoDup|].
    split; [apply firstOccurrences_NoDup|].
    split; intros x; rewrite firstOccurrences_In, in_map_iff;
      split; intros (p & H1 & H2); exists p; now split.
  - intros ev w Hev.
    destruct (step_keeps_derived_sets v ev w Hev) as (_ & H2 & H3 & _).
    now split.
  - intros evs. cbv zeta.
    destruct (run_Waiting_or_Loaded v d evs) as [Hin Hout].
    split; [|split].
    + destruct (in_dec Event_eq_dec FetchSettled evs) as [H|H].
      * now destruct (Hin H) as (_ & Hr & _).
      * now destruct (Hout H) as (_ & Hr & _).
    + intros H. now destruct (Hin H) as (_ & _ & _ & Hb & Hc).
    + intros H. now destruct (Hout H) as (_ & _ & _ & Hb & Hc).
Qed.

(** ** The visible subset and the current filter inputs *)

Lemma visibleIsCurrentb_spec (w : World) :
  visibleIsCurrentb w = true <-> visibleIsCurrent w.
Proof.
  unfold visibleIsCurrentb, visibleIsCurrent.
  destruct (list_eq_dec _ _ _); split; intro H;
    try reflexivity; try assumption; try discriminate; contradiction.
Qed.

(** C2, as stated, fails in the versions with an Apply button: after the
    products of the scenario are loaded, typing a query that matches nothing
    leaves both products visible until Apply is clicked. *)
Lemma visible_subset_stale_until_apply :
  ~ visibleIsCurrent
      (run Part000 (successResponse scenario)
         [FetchSettled; ChangeSearch "zzz"]).
Proof.
  intros H. apply visibleIsCurrentb_spec in H. vm_compute in H.
  discriminate.
Qed.

Example visible_subset_stale_AppApply :
  filtered (app (run AppApply (successResponse scenario)
                   [FetchSettled; ChangeSearch "zzz"])) = scenario /\
  filterProducts scenario "" "" "zzz" = [].
Proof. split; reflexivity. Qed.

Lemma applyFilters_current (w : World) : visibleIsCurrent (onApp applyFilters w).
Proof. reflexivity. Qed.

Lemma depsChanged_false_inv (old new : World) :
  depsChanged old new = false ->
  selectedBrand (app new) = selectedBrand (app old) /\
  selectedCategory (app new) = selectedCategory (app old) /\
  search (app new) = search (app old) /\
  productsRef new = productsRef old.
Proof.
  unfold depsChanged. rewrite !orb_false_iff, !negb_false_iff.
  intros [[[Hb Hc] Hs] Hr].
  apply String.eqb_eq in Hb, Hc, Hs. apply Nat.eqb_eq in Hr.
  now repeat split.
Qed.

(** With the effect, every step ends with a current visible subset. *)
Lemma step_AppAuto_current (ev : Event) (w : World) :
  visibleIsCurrent w -> visibleIsCurrent (step AppAuto ev w).
Proof.
  intros Hw. unfold step, runEffects.
  destruct (depsChanged w (handle AppAuto ev w)) eqn:Hdeps;
    [apply applyFilters_current|].
  apply depsChanged_false_inv in Hdeps as (Hb & Hc & Hs & Hr).
  revert Hb Hc Hs Hr. unfold visibleIsCurrent in *.
  destruct ev; simpl; export_cases; intros Hb Hc Hs Hr.
  - now rewrite Hs.
  - now rewrite Hb.
  - now rewrite Hc.
  - assumption.
  - reflexivity.
  - assumption.
  - assumption.
  - assumption.
  - revert Hr. destruct (pending w) as [[[d|] [message|]]|]; simpl;
      intros Hr; try assumption.
    exfalso. revert Hr. apply Nat.neq_succ_diag_l.
Qed.

(** C2 (amended): in the version whose filters are re-applied by an effect,
    after every event, once its effects have run, the visible subset is the
    Filter Engine's output for the current product list and filter fields.
    In the versions with an Apply button this holds right after a click on
    Apply and right after a click on Reset; there a change of a filter field
    leaves the visible subset as it was. *)
Theorem visible_subset_current :
  (forall (r : Response) (evs : list Event),
     visibleIsCurrent (run AppAuto r evs)) /\
  (forall (v : Version) (w : World), visibleIsCurrent (step v ClickReset w)) /\
  (forall w : World, visibleIsCurrent (step AppApply ClickApply w)) /\
  (forall w : World, visibleIsCurrent (step Part000 ClickApply w)) /\
  (forall (w : World) (value : string),
     filtered (app (step AppApply (ChangeSearch value) w)) = filtered (app w) /\
     filtered (app (step AppApply (ChangeBrand value) w)) = filtered (app w) /\
     filtered (app (step AppApply (ChangeCategory value) w))
     = filtered (app w) /\
     filtered (app (step Part000 (ChangeSearch value) w)) = filtered (app w) /\
     filtered (app (step Part000 (ChangeBrand value) w)) = filtered (app w) /\
     filtered (app (step Part000 (ChangeCategory value) w))
     = filtered (app w)).
Proof.
  split; [|split; [|split; [|split]]].
  - intros r evs. apply run_invariant.
    + apply applyFilters_current.
    + intros ev w. apply step_AppAuto_current.
  - intros v w. unfold step, handle, runEffects.
    destruct v; try reflexivity.
    destruct (depsChanged w (onApp resetFilters w)); reflexivity.
  - intros w. reflexivity.
  - intros w. reflexivity.
  - intros w value. repeat split.
Qed.

(** ** Algebra of the Filter Engine *)

Lemma keeps_split (b c q : string) (p : Product) :
  keeps b c q p = keeps b "" "" p && keeps "" c "" p && keeps "" "" q p.
Proof.
  unfold keeps. simpl.
  now rewrite !andb_true_r.
Qed.

(** X1: applying the filters to their own output changes nothing: a second
    click on Apply with the same filter fields shows the same list. *)
Theorem filterProducts_idempotent (all : list Product) (b c q : string) :
  filterProducts (filterProducts all b c q) b c q = filterProducts all b c q.
Proof.
  rewrite !filterProducts_filter, filter_filter.
  apply filter_ext. intros p. apply andb_diag.
Qed.

(** X2: two passes of the filters commute, and the three predicates may be
    applied one at a time, in any order, each to the output of the others:
    the result does not depend on the order in which filters are set. *)
Theorem filterProducts_compose (all : list Product)
    (b c q b' c' q' : string) :
  filterProducts (filterProducts all b c q) b' c' q'
  = filterProducts (filterProducts all b' c' q') b c q /\
  filterProducts all b c q
  = filterProducts (filterProducts (filterProducts all b "" "") "" c "")
      "" "" q /\
  filterProducts all b c q
  = filterProducts (filterProducts (filterProducts all "" "" q) "" c "")
      b "" "".
Proof.
  rewrite !filterProducts_filter, !filter_filter.
  split; [|split]; apply filter_ext; intros p.
  - apply andb_comm.
  - rewrite (keeps_split b c q).
    destruct (keeps b "" "" p), (keeps "" c "" p), (keeps "" "" q p);
      reflexivity.
  - rewrite (keeps_split b c q).
    destruct (keeps b "" "" p), (keeps "" c "" p), (keeps "" "" q p);
      reflexivity.
Qed.

(** X3: each product is judged on its own: filtering a concatenation is
    concatenating the filtered parts, and the empty list stays empty. *)
Theorem filterProducts_app (l1 l2 : list Product) (b c q : string) :
  filterProducts (l1 ++ l2) b c q
  = filterProducts l1 b c q ++ filterProducts l2 b c q /\
  filterProducts [] b c q = [].
Proof.
  rewrite !filterProducts_filter. split; [apply filter_app | reflexivity].
Qed.

(** ** The text query *)

Lemma isWhiteSpace_lowerUnit (c : ascii) :
  Js.isWhiteSpace (Js.lowerUnit c) = Js.isWhiteSpace c.
Proof.
  destruct c as [[] [] [] [] [] [] [] []]; reflexivity.
Qed.

Lemma onlyWhiteSpace_toLowerCase (s : string) :
  onlyWhiteSpace (Js.toLowerCase s) = onlyWhiteSpace s.
Proof.
  unfold onlyWhiteSpace. induction s as [|c s IH]; simpl; [reflexivity|].
  now rewrite isWhiteSpace_lowerUnit, IH.
Qed.

Lemma onlyWhiteSpace_append (s t : string) :
  onlyWhiteSpace (s ++ t)%string = onlyWhiteSpace s && onlyWhiteSpace t.
Proof.
  unfold onlyWhiteSpace. induction s as [|c s IH]; simpl; [reflexivity|].
  now rewrite IH, andb_assoc.
Qed.

Lemma truthy_trim (s : string) :
  Js.truthy (Js.trim s) = negb (onlyWhiteSpace s).
Proof.
  destruct (onlyWhiteSpace s) eqn:Hs; simpl.
  - apply truthy_false_iff. now apply trim_empty_iff.
  - apply truthy_true_iff. intros H. apply trim_empty_iff in H. congruence.
Qed.

Lemma Substring_trans (r s t : string) :
  Substring r s -> Substring s t -> Substring r t.
Proof.
  intros (a & b & ->) (a' & b' & ->).
  exists (a' ++ a)%string, (b ++ b')%string.
  clear. induction a' as [|x a' IH]; simpl.
  - induction a as [|y a IHa]; simpl.
    + induction r as [|z r IHr]; simpl; [reflexivity | now rewrite IHr].
    + now rewrite IHa.
  - now rewrite IH.
Qed.

(** X4: the search does not look at the case of the query: two queries with the
    same lower case give the same list. *)
Theorem query_case_insensitive (all : list Product) (b c q q' : string) :
  Js.toLowerCase q = Js.toLowerCase q' ->
  filterProducts all b c q = filterProducts all b c q'.
Proof.
  intros Hq. unfold filterProducts.
  rewrite !truthy_trim, <- (onlyWhiteSpace_toLowerCase q),
    <- (onlyWhiteSpace_toLowerCase q'), Hq.
  reflexivity.
Qed.

(** "WIDGET" and "widget" find the same products of the scenario. *)
Lemma query_case_insensitive_witness :
  filterProducts scenario "" "" "WIDGET" = filterProducts scenario "" "" "widget".
Proof.
  apply (query_case_insensitive scenario "" "" "WIDGET" "widget").
  reflexivity.
Defined.

(** X5: typing more never shows more: when the lower-cased query [q] occurs in
    the lower-cased query [q'], every product visible under [q'] is visible
    under [q]. *)
Theorem longer_query_narrows (all : list Product) (b c q q' : string)
    (p : Product) :
  Substring (Js.toLowerCase q) (Js.toLowerCase q') ->
  In p (filterProducts all b c q') ->
  In p (filterProducts all b c q).
Proof.
  intros Hsub. rewrite !In_filterProducts, !keeps_spec.
  intros (Hall & Hb & Hc & Ht). repeat split; try assumption.
  destruct Ht as [Ht|Ht].
  - left. apply trim_empty_iff. apply trim_empty_iff in Ht.
    rewrite <- onlyWhiteSpace_toLowerCase in Ht.
    destruct Hsub as (x & y & Hxy). rewrite Hxy in Ht.
    rewrite !onlyWhiteSpace_append, !andb_true_iff in Ht.
    rewrite <- onlyWhiteSpace_toLowerCase. tauto.
  - right. destruct Ht as [Ht|[Ht|Ht]];
      [left | right; left | right; right];
      exact (Substring_trans _ _ _ Hsub Ht).
Qed.

(** "Gadget B" is found by "gadget b", and so by "dge". *)
Lemma longer_query_narrows_witness :
  In gadgetB (filterProducts scenario "" "" "dge").
Proof.
  apply (longer_query_narrows scenario "" "" "dge" "gadget b" gadgetB).
  - exists "ga", "t b". reflexivity.
  - simpl. auto.
Defined.

(** ** Invariants of a run, for every version and every answer *)

Lemma Subsequence_refl {A : Type} (l : list A) : Subsequence l l.
Proof.
  induction l; now constructor.
Qed.

Lemma Subsequence_length {A : Type} (l l' : list A) :
  Subsequence l l' -> List.length l <= List.length l'.
Proof.
  induction 1; simpl; lia.
Qed.

Lemma Subsequence_In {A : Type} (l l' : list A) (x : A) :
  Subsequence l l' -> In x l -> In x l'.
Proof.
  induction 1; simpl; intuition.
Qed.

Lemma Subsequence_nil_r {A : Type} (l : list A) : Subsequence l [] -> l = [].
Proof.
  intros H. now inversion H.
Qed.

Lemma handle_visible_from_products (v : Version) (ev : Event) (w : World) :
  Subsequence (filtered (app w)) (products (app w)) ->
  Subsequence (filtered (app (handle v ev w))) (products (app (handle v ev w))).
Proof.
  intros Hw. destruct ev; simpl; export_cases; try assumption.
  - destruct v; simpl; try assumption; apply filterProducts_Subsequence.
  - apply Subsequence_refl.
  - destruct (pending w) as [[[d|] [message|]]|]; destruct v; simpl;
      try assumption; apply Subsequence_refl.
Qed.

Lemma step_visible_from_products (v : Version) (ev : Event) (w : World) :
  Subsequence (filtered (app w)) (products (app w)) ->
  Subsequence (filtered (app (step v ev w))) (products (app (step v ev w))).
Proof.
  intros Hw. apply (handle_visible_from_products v ev) in Hw.
  unfold step, runEffects. destruct v; try assumption.
  destruct (depsChanged w (handle AppAuto ev w)); [|assumption].
  apply filterProducts_Subsequence.
Qed.

Lemma run_visible_from_products (v : Version) (r : Response)
    (evs : list Event) :
  Subsequence (filtered (app (run v r evs))) (products (app (run v r evs))).
Proof.
  apply (run_invariant
           (fun w => Subsequence (filtered (app w)) (products (app w)))).
  - destruct v; constructor.
  - intros ev w. apply step_visible_from_products.
Qed.

(** X6: in every state of a run, of every version and for every answer of the
    store, the visible products are loaded products in their order: the
    counts of "Showing X of Y products" satisfy X <= Y. *)
Theorem visible_within_products (v : Version) (r : Response)
    (evs : list Event) :
  Subsequence (filtered (app (run v r evs))) (products (app (run v r evs))) /\
  (forall p, In p (filtered (app (run v r evs))) ->
             In p (products (app (run v r evs)))) /\
  fst (resultsCount (app (run v r evs)))
  <= snd (resultsCount (app (run v r evs))) /\
  exportLabelCount (app (run v r evs))
  <= List.length (products (app (run v r evs))).
Proof.
  pose proof (run_visible_from_products v r evs) as H.
  split; [assumption|]. split; [|split].
  - intros p. now apply Subsequence_In.
  - now apply Subsequence_length.
  - now apply Subsequence_length.
Qed.

Lemma step_derivedSets (v : Version) (ev : Event) (w : World) :
  derivedSetsInvariant w -> derivedSetsInvariant (step v ev w).
Proof.
  intros [Hb Hc]. unfold derivedSetsInvariant, step.
  destruct (runEffects_frame v w (handle v ev w)) as (-> & -> & -> & _).
  destruct ev; simpl; export_cases; try (now split);
    try (destruct v; simpl; now split).
  destruct (pending w) as [[[d|] [message|]]|]; destruct v; simpl;
    rewrite ?Set_new_firstOccurrences; now split.
Qed.

Lemma run_derivedSets (v : Version) (r : Response) (evs : list Event) :
  derivedSetsInvariant (run v r evs).
Proof.
  apply run_invariant.
  - destruct v; now split.
  - intros ev w. apply step_derivedSets.
Qed.

(** X7: in every state of a run the selectors offer, after the "all" option,
    exactly the brands and the categories of the loaded products, each once
    and in first-occurrence order. *)
Theorem selector_options_follow_products (v : Version) (r : Response)
    (evs : list Event) :
  map fst (brandOptions (app (run v r evs)))
  = "" :: firstOccurrences (map brand (products (app (run v r evs)))) /\
  map fst (categoryOptions (app (run v r evs)))
  = "" :: firstOccurrences (map category (products (app (run v r evs)))) /\
  NoDup (brands (app (run v r evs))) /\
  NoDup (categories (app (run v r evs))) /\
  (forall p, In p (products (app (run v r evs))) ->
             In (brand p) (brands (app (run v r evs))) /\
             In (category p) (categories (app (run v r evs)))).
Proof.
  destruct (run_derivedSets v r evs) as [Hb Hc].
  unfold brandOptions, categoryOptions. simpl.
  rewrite !map_map. simpl. rewrite !map_id, Hb, Hc.
  repeat split; try apply firstOccurrences_NoDup;
    apply firstOccurrences_In; now apply in_map.
Qed.

(** X8: every brand a selector offers, other than the empty one, finds a
    product: chosen alone it shows a non-empty list of products of that
    brand. *)
Theorem offered_brand_finds_products (v : Version) (r : Response)
    (evs : list Event) (b : string) :
  In b (brands (app (run v r evs))) ->
  b <> "" ->
  filterProducts (products (app (run v r evs))) b "" "" <> [] /\
  Forall (fun p => brand p = b)
    (filterProducts (products (app (run v r evs))) b "" "").
Proof.
  intros Hin Hne. destruct (run_derivedSets v r evs) as [Hb _].
  rewrite Hb in Hin. apply -> firstOccurrences_In in Hin.
  apply in_map_iff in Hin as (p & Hp & Hall). split.
  - intros Hnil.
    assert (Hk : In p (filterProducts (products (app (run v r evs))) b "" "")).
    { apply In_filterProducts. split; [assumption|].
      apply keeps_spec. repeat split; auto. }
    rewrite Hnil in Hk. contradiction.
  - apply Forall_forall. intros x Hx.
    apply In_filterProducts in Hx as [_ Hx].
    apply keeps_spec in Hx as ([Hx|Hx] & _); congruence.
Qed.

(** X9: every category a selector offers, other than the empty one, finds a
    product: chosen alone it shows a non-empty list of products of that
    category. *)
Theorem offered_category_finds_products (v : Version) (r : Response)
    (evs : list Event) (c : string) :
  In c (categories (app (run v r evs))) ->
  c <> "" ->
  filterProducts (products (app (run v r evs))) "" c "" <> [] /\
  Forall (fun p => category p = c)
    (filterProducts (products (app (run v r evs))) "" c "").
Proof.
  intros Hin Hne. destruct (run_derivedSets v r evs) as [_ Hc].
  rewrite Hc in Hin. apply -> firstOccurrences_In in Hin.
  apply in_map_iff in Hin as (p & Hp & Hall). split.
  - intros Hnil.
    assert (Hk : In p (filterProducts (products (app (run v r evs))) "" c "")).
    { apply In_filterProducts. split; [assumption|].
      apply keeps_spec. repeat split; auto. }
    rewrite Hnil in Hk. contradiction.
  - apply Forall_forall. intros x Hx.
    apply In_filterProducts in Hx as [_ Hx].
    apply keeps_spec in Hx as (_ & [Hx|Hx] & _); congruence.
Qed.

(** "Zeta" is offered once the scenario is loaded, and finds "Gadget B". *)
Lemma offered_brand_finds_products_witness :
  filterProducts
    (products (app (run AppAuto (successResponse scenario) [FetchSettled])))
    "Zeta" "" "" <> [] /\
  Forall (fun p => brand p = "Zeta")
    (filterProducts
       (products (app (run AppAuto (successResponse scenario) [FetchSettled])))
       "Zeta" "" "").
Proof.
  apply (offered_brand_finds_products AppAuto (successResponse scenario)
           [FetchSettled] "Zeta").
  - right. left. reflexivity.
  - discriminate.
Defined.

Lemma offered_category_finds_products_witness :
  filterProducts
    (products (app (run Part000 (successResponse scenario) [FetchSettled])))
    "" "Tools" "" <> [] /\
  Forall (fun p => category p = "Tools")
    (filterProducts
       (products (app (run Part000 (successResponse scenario) [FetchSettled])))
       "" "Tools" "").
Proof.
  apply (offered_category_finds_products Part000 (successResponse scenario)
           [FetchSettled] "Tools").
  - left. reflexivity.
  - discriminate.
Defined.

(** ** Requests, diagnostics and downloads along a run *)

Lemma step_traffic (v : Version) (r : Response) (ev : Event) (w : World) :
  trafficInvariant v r w -> trafficInvariant v r (step v ev w).
Proof.
  intros [Hreq Hpc]. unfold trafficInvariant, step.
  destruct (runEffects_frame v w (handle v ev w))
    as (_ & _ & _ & _ & _ & _ & _ & -> & -> & -> & _).
  destruct ev; simpl; export_cases; try (destruct v; simpl; now split).
  destruct Hpc as [[Hp Hc]|[Hp Hc]]; rewrite Hp.
  - destruct r as [[d|] [message|]]; destruct v; simpl; rewrite ?Hc;
      (split; [assumption|]); right; (split; [reflexivity|]);
      first [ now left | right; now exists message ].
  - split; [assumption|]. now right.
Qed.

Lemma run_traffic (v : Version) (r : Response) (evs : list Event) :
  trafficInvariant v r (run v r evs).
Proof.
  apply run_invariant.
  - destruct v; (split; [reflexivity|]); now left.
  - intros ev w. apply step_traffic.
Qed.

(** X10: whatever the user does and whatever the store answers, a run asks the
    store once; it logs at most one diagnostic, and none unless the answer
    carries an error. *)
Theorem one_request_one_diagnostic (v : Version) (r : Response)
    (evs : list Event) :
  requests (run v r evs) = 1 /\
  List.length (console (run v r evs)) <= 1 /\
  (error r = None -> console (run v r evs) = []) /\
  (forall line, In line (console (run v r evs)) ->
     exists message, error r = Some message /\
                     line = [diagnosticLabel v; message]).
Proof.
  destruct (run_traffic v r evs) as [Hreq Hpc].
  split; [assumption|].
  assert (H : console (run v r evs) = []
              \/ exists message, error r = Some message /\
                   console (run v r evs) = [[diagnosticLabel v; message]])
    by (destruct Hpc as [[_ Hc]|[_ Hc]]; [now left | assumption]).
  destruct H as [Hc|(message & He & Hc)]; rewrite Hc; simpl.
  - split; [lia|]. split; [reflexivity|]. intros line [].
  - split; [lia|]. split; [congruence|].
    intros line [<-|[]]. now exists message.
Qed.

Lemma step_downloads (v : Version) (ev : Event) (w : World) :
  downloads (step v ev w)
  = downloads w
    ++ (if Event_eq_dec ev ClickExport
        then if exportFits (filtered (app w))
             then [exportedFile v (filtered (app w))] else []
        else []).
Proof.
  unfold step.
  destruct (runEffects_frame v w (handle v ev w))
    as (_ & _ & _ & _ & _ & _ & _ & _ & _ & _ & ->).
  destruct ev; simpl; export_cases; rewrite ?app_nil_r; try reflexivity.
  - destruct v; simpl; now rewrite ?app_nil_r.
  - destruct (pending w) as [[[d|] [message|]]|]; destruct v; simpl;
      now rewrite ?app_nil_r.
Qed.

Lemma run_downloads (v : Version) (r : Response) (evs : list Event) :
  List.length (downloads (run v r evs))
  <= count_occ Event_eq_dec evs ClickExport /\
  Forall (fun f => fileName f = "Filtered_Products.xlsx" /\
                   map fst (workbook f) = [sheetName v])
    (downloads (run v r evs)).
Proof.
  induction evs as [|ev evs [IHn IHf]] using rev_ind.
  - destruct v; split; constructor.
  - rewrite run_snoc, step_downloads, length_app, count_occ_app.
    split.
    + apply Nat.add_le_mono; [assumption|]. simpl.
      destruct (Event_eq_dec ev ClickExport) as [->|Hne].
      * destruct (exportFits _); simpl; lia.
      * simpl. lia.
    + apply Forall_app. split; [assumption|].
      destruct (Event_eq_dec ev ClickExport); [|constructor].
      destruct (exportFits _); constructor; [|constructor].
      now split.
Qed.

(** X11: along a run files are saved by clicks on Export only, at most one
    per click; every saved file has the same name and one sheet, named as
    the version names it, made of the list visible at the click.  A click
    on Export at which the library throws saves nothing and leaves the
    whole state as it was. *)
Theorem files_only_from_export_clicks (v : Version) (r : Response)
    (evs : list Event) :
  List.length (downloads (run v r evs))
  <= count_occ Event_eq_dec evs ClickExport /\
  Forall (fun f => fileName f = "Filtered_Products.xlsx" /\
                   map fst (workbook f) = [sheetName v])
    (downloads (run v r evs)) /\
  (forall ev w, ev <> ClickExport -> downloads (step v ev w) = downloads w) /\
  (forall w, downloads (step v ClickExport w)
             = downloads w ++ [exportedFile v (filtered (app w))]
             \/ step v ClickExport w = w) /\
  (forall w, step v ClickExportThrows w = w).
Proof.
  destruct (run_downloads v r evs) as [Hn Hf].
  repeat split; try assumption.
  - intros ev w Hev. rewrite step_downloads.
    destruct (Event_eq_dec ev ClickExport); [contradiction|].
    apply app_nil_r.
  - intros w. rewrite step_ClickExport.
    destruct (exportFits (filtered (app w))); [now left | now right].
  - intros w. apply step_ClickExportThrows.
Qed.

(** ** What the view shows when no product is listed *)

Lemma run_AppAuto_current (r : Response) (evs : list Event) :
  visibleIsCurrent (run AppAuto r evs).
Proof.
  apply run_invariant.
  - apply applyFilters_current.
  - intros ev w. apply step_AppAuto_current.
Qed.

Lemma emptyStatesCoherent_from_products (st : AppState) :
  Subsequence (filtered st) (products st) -> emptyStatesCoherent st.
Proof.
  unfold emptyStatesCoherent, noMatchShown, loadingShown. intros Hsub.
  destruct (filtered st) as [|p fs]; destruct (products st) as [|q ps];
    unfold Nat.ltb; simpl; try (now inversion Hsub); intuition congruence.
Qed.

(** X12: in the first component of [src/App.tsx], at every render of a run,
    the settled states as well as the render between a handler and the
    effect that re-applies the filters: the two messages are never shown
    together; no product is listed exactly when one of them is shown;
    "Loading products..." is shown exactly when no product is loaded.  Once
    the effects have run, the "no match" message is shown exactly when
    products are loaded and the current filters keep none. *)
Theorem empty_state_messages (r : Response) (evs : list Event) (ev : Event) :
  emptyStatesCoherent (app (run AppAuto r evs)) /\
  emptyStatesCoherent (app (handle AppAuto ev (run AppAuto r evs))) /\
  (noMatchShown (app (run AppAuto r evs)) = true <->
   products (app (run AppAuto r evs)) <> [] /\
   filterProducts (products (app (run AppAuto r evs)))
     (selectedBrand (app (run AppAuto r evs)))
     (selectedCategory (app (run AppAuto r evs)))
     (search (app (run AppAuto r evs))) = []).
Proof.
  pose proof (run_visible_from_products AppAuto r evs) as Hsub.
  split; [|split].
  - now apply emptyStatesCoherent_from_products.
  - apply emptyStatesCoherent_from_products.
    now apply handle_visible_from_products.
  - pose proof (run_AppAuto_current r evs) as Hcur.
    unfold visibleIsCurrent in Hcur. rewrite <- Hcur.
    unfold noMatchShown.
    destruct (filtered (app (run AppAuto r evs))) as [|p fs];
      destruct (products (app (run AppAuto r evs))) as [|q ps];
      unfold Nat.ltb; simpl; intuition congruence.
Qed.

(** The render the settled states do not cover: the scenario is loaded and
    "zzz" typed; before the effect runs both products are still listed and
    no message is shown, although the filters keep nothing. *)
Example render_before_the_effect :
  filtered (app (handle AppAuto (ChangeSearch "zzz")
                   (run AppAuto (successResponse scenario) [FetchSettled])))
  = scenario /\
  noMatchShown (app (handle AppAuto (ChangeSearch "zzz")
                       (run AppAuto (successResponse scenario)
                          [FetchSettled]))) = false /\
  noMatchShown (app (step AppAuto (ChangeSearch "zzz")
                       (run AppAuto (successResponse scenario)
                          [FetchSettled]))) = true.
Proof. repeat split. Qed.

Lemma step_no_product (v : Version) (r : Response) (ev : Event) (w : World) :
  bringsNoProduct r = true ->
  products (app w) = [] /\ (pending w = Some r \/ pending w = None) ->
  products (app (step v ev w)) = [] /\
  (pending (step v ev w) = Some r \/ pending (step v ev w) = None).
Proof.
  intros Hr [Hp Hpend]. unfold step.
  destruct (runEffects_frame v w (handle v ev w))
    as (-> & _ & _ & _ & _ & _ & _ & _ & _ & -> & _).
  destruct ev; simpl; export_cases; try (destruct v; simpl; now split).
  destruct Hpend as [Hpend|Hpend]; rewrite Hpend; [|now split; [|right]].
  destruct r as [[[|p d]|] [message|]]; try discriminate;
    destruct v; simpl; (split; [assumption || reflexivity | now right]).
Qed.

(** X13: when the answer of the store brings no product (an error, no data, or
    an empty list), the product list stays empty for the whole run and the
    first component of [src/App.tsx] keeps showing "Loading products...",
    never the "no match" message. *)
Theorem loading_message_stays (v : Version) (r : Response)
    (evs : list Event) :
  bringsNoProduct r = true ->
  products (app (run v r evs)) = [] /\
  filtered (app (run v r evs)) = [] /\
  (v = AppAuto ->
   loadingShown (app (run v r evs)) = true /\
   noMatchShown (app (run v r evs)) = false).
Proof.
  intros Hr.
  assert (H : products (app (run v r evs)) = [] /\
              (pending (run v r evs) = Some r \/ pending (run v r evs) = None)).
  { apply (run_invariant
             (fun w => products (app w) = [] /\
                       (pending w = Some r \/ pending w = None))).
    - destruct v; (split; [reflexivity | now left]).
    - intros ev w. now apply step_no_product. }
  destruct H as [Hp _].
  pose proof (run_visible_from_products v r evs) as Hsub.
  rewrite Hp in Hsub. apply Subsequence_nil_r in Hsub.
  split; [assumption|]. split; [assumption|].
  intros _. unfold loadingShown, noMatchShown. now rewrite Hp, Hsub.
Qed.

(** A failed load: "Loading products..." after the error and a click. *)
Lemma loading_message_stays_witness :
  products (app (run AppAuto (errorResponse None "offline")
                   [FetchSettled; ClickReset])) = [] /\
  filtered (app (run AppAuto (errorResponse None "offline")
                   [FetchSettled; ClickReset])) = [] /\
  (AppAuto = AppAuto ->
   loadingShown (app (run AppAuto (errorResponse None "offline")
                        [FetchSettled; ClickReset])) = true /\
   noMatchShown (app (run AppAuto (errorResponse None "offline")
                        [FetchSettled; ClickReset])) = false).
Proof.
  apply (loading_message_stays AppAuto (errorResponse None "offline")
           [FetchSettled; ClickReset]).
  reflexivity.
Defined.

Lemma filterProducts_nil (b c q : string) : filterProducts [] b c q = [].
Proof.
  now rewrite filterProducts_filter.
Qed.

Lemma step_nothingLoaded (v : Version) (r : Response) (ev : Event)
    (w : World) :
  ev <> FetchSettled -> nothingLoaded r w -> nothingLoaded r (step v ev w).
Proof.
  intros Hev (Hpend & Hp & Hf). unfold nothingLoaded, step.
  destruct (runEffects_frame v w (handle v ev w))
    as (Hp' & _ & _ & _ & _ & _ & _ & _ & _ & -> & _).
  assert (H : pending (handle v ev w) = Some r /\
              products (app (handle v ev w)) = [] /\
              filtered (app (handle v ev w)) = []).
  { destruct ev; try (now elim Hev); simpl; export_cases;
      try (destruct v; simpl); rewrite ?Hp, ?filterProducts_nil;
      repeat split; assumption. }
  destruct H as (H1 & H2 & H3). split; [assumption|].
  rewrite Hp'. split; [assumption|].
  unfold runEffects. destruct v; try assumption.
  destruct (depsChanged w (handle AppAuto ev w)); [|assumption].
  simpl. rewrite H2. apply filterProducts_nil.
Qed.

Lemma run_nothingLoaded (v : Version) (r : Response) (evs : list Event) :
  ~ In FetchSettled evs -> nothingLoaded r (run v r evs).
Proof.
  induction evs as [|ev evs IH] using rev_ind; intros Hnot.
  - destruct v; repeat split.
  - rewrite run_snoc. apply step_nothingLoaded.
    + intros ->. apply Hnot, in_or_app. right. now left.
    + apply IH. intros Hin. apply Hnot, in_or_app. now left.
Qed.

(** X14: until the load is answered nothing is listed, whatever the user does:
    [unnamed/part_000] shows its "No results found" row already while the
    request is in flight, the first component of [src/App.tsx] shows
    "Loading products...". *)
Theorem before_the_answer (r : Response) (evs : list Event) :
  ~ In FetchSettled evs ->
  (forall v, products (app (run v r evs)) = [] /\
             filtered (app (run v r evs)) = [] /\
             pending (run v r evs) = Some r) /\
  noResultsRowShown (app (run Part000 r evs)) = true /\
  loadingShown (app (run AppAuto r evs)) = true /\
  noMatchShown (app (run AppAuto r evs)) = false.
Proof.
  intros Hnot.
  assert (H : forall v, nothingLoaded r (run v r evs))
    by (intros v; now apply run_nothingLoaded).
  split.
  - intros v. destruct (H v) as (H1 & H2 & H3). now repeat split.
  - destruct (H Part000) as (_ & _ & Hf).
    destruct (H AppAuto) as (_ & Hp & Hf').
    unfold noResultsRowShown, loadingShown, noMatchShown.
    now rewrite Hf, Hp, Hf'.
Qed.

Lemma before_the_answer_witness :
  (forall v,
     products (app (run v (successResponse scenario)
                      [ChangeSearch "gadget"; ClickApply])) = [] /\
     filtered (app (run v (successResponse scenario)
                      [ChangeSearch "gadget"; ClickApply])) = [] /\
     pending (run v (successResponse scenario)
                [ChangeSearch "gadget"; ClickApply])
     = Some (successResponse scenario)) /\
  noResultsRowShown
    (app (run Part000 (successResponse scenario)
            [ChangeSearch "gadget"; ClickApply])) = true /\
  loadingShown
    (app (run AppAuto (successResponse scenario)
            [ChangeSearch "gadget"; ClickApply])) = true /\
  noMatchShown
    (app (run AppAuto (successResponse scenario)
            [ChangeSearch "gadget"; ClickApply])) = false.
Proof.
  apply (before_the_answer (successResponse scenario)
           [ChangeSearch "gadget"; ClickApply]).
  intros [H|[H|[]]]; discriminate.
Defined.

(** ** The settled load, case by case *)

Lemma depsChanged_fresh_products (old new : World) :
  productsRef new = S (productsRef old) -> depsChanged old new = true.
Proof.
  intros H. unfold depsChanged. rewrite H.
  replace (Nat.eqb (productsRef old) (S (productsRef old))) with false.
  - apply orb_true_r.
  - symmetry. apply Nat.eqb_neq. lia.
Qed.

(** X15: an answer with neither data nor error writes no state and logs
    nothing, in every version; [unnamed/part_000] gets there by throwing on
    [productList.map], the two components of [src/App.tsx] by skipping both
    branches. *)
Theorem answer_without_data_or_error (v : Version) (w : World) :
  app (step v FetchSettled (setPending (Some noAnswer) w)) = app w /\
  console (step v FetchSettled (setPending (Some noAnswer) w)) = console w /\
  requests (step v FetchSettled (setPending (Some noAnswer) w)) = requests w /\
  pending (step v FetchSettled (setPending (Some noAnswer) w)) = None /\
  productsRef (step v FetchSettled (setPending (Some noAnswer) w))
  = productsRef w /\
  (exists e, fetchProducts_resume Part000 noAnswer w = Throw e) /\
  fetchProducts_resume AppAuto noAnswer w = Normal w /\
  fetchProducts_resume AppApply noAnswer w = Normal w.
Proof.
  unfold step, handle.
  destruct v; simpl; rewrite ?depsChanged_false by reflexivity;
    repeat split; now eexists.
Qed.

(** X16: what is visible right after a successful load: with the effect, the
    loaded list filtered by the filter fields as they are at that moment;
    with an Apply button, the whole loaded list whatever the filter fields
    hold. *)
Theorem visible_after_load (w : World) (d : list Product) :
  filtered (app (step AppAuto FetchSettled
                   (setPending (Some (successResponse d)) w)))
  = filterProducts d (selectedBrand (app w)) (selectedCategory (app w))
      (search (app w)) /\
  filtered (app (step AppApply FetchSettled
                   (setPending (Some (successResponse d)) w))) = d /\
  filtered (app (step Part000 FetchSettled
                   (setPending (Some (successResponse d)) w))) = d.
Proof.
  split; [|split; reflexivity].
  unfold step. rewrite step_FetchSettled_success. unfold runEffects.
  rewrite depsChanged_fresh_products by reflexivity.
  reflexivity.
Qed.

(** ** Clicks repeated, and the effect as a click on Apply *)

Lemma applyFilters_fixpoint (w : World) :
  visibleIsCurrent w -> onApp applyFilters w = w.
Proof.
  destruct w as [[ps fs bs cs sb sc s] ref con req pend dl].
  unfold visibleIsCurrent, onApp, applyFilters, setFiltered. simpl.
  now intros <-.
Qed.

Lemma applyFilters_twice (w : World) :
  onApp applyFilters (onApp applyFilters w) = onApp applyFilters w.
Proof.
  apply applyFilters_fixpoint, applyFilters_current.
Qed.

(** X17: a second click on Apply, or on Reset, right after the first changes
    nothing at all. *)
Theorem repeated_click_changes_nothing (v : Version) (w : World) :
  step v ClickApply (step v ClickApply w) = step v ClickApply w /\
  step v ClickReset (step v ClickReset w) = step v ClickReset w.
Proof.
  split.
  - destruct v; unfold step, handle, runEffects.
    + now rewrite depsChanged_false.
    + apply applyFilters_twice.
    + apply applyFilters_twice.
  - destruct v; unfold step, handle, runEffects; try reflexivity.
    destruct (depsChanged w (onApp resetFilters w));
      now rewrite depsChanged_false.
Qed.

Lemma run_app (v : Version) (r : Response) (evs evs' : list Event) :
  run v r (evs ++ evs') = fold_left (fun w ev => step v ev w) evs' (run v r evs).
Proof.
  unfold run. apply fold_left_app.
Qed.

Lemma handle_AppApply_AppAuto (ev : Event) (w : World) :
  ev <> ClickApply -> handle AppApply ev w = handle AppAuto ev w.
Proof.
  intros Hev. destruct ev; try reflexivity. now elim Hev.
Qed.

Lemma step_apply_after (ev : Event) (w : World) :
  visibleIsCurrent w ->
  step AppApply ClickApply (step AppApply ev w) = step AppAuto ev w.
Proof.
  intros Hw.
  pose proof (step_AppAuto_current ev w Hw) as Hcur.
  change (step AppApply ClickApply (step AppApply ev w))
    with (onApp applyFilters (handle AppApply ev w)).
  assert (Hev : ev = ClickApply \/ ev <> ClickApply)
    by (destruct ev; (now left) || (right; discriminate)).
  destruct Hev as [->|Hev].
  - unfold step, handle, runEffects.
    rewrite depsChanged_false by reflexivity.
    rewrite applyFilters_twice. now apply applyFilters_fixpoint.
  - rewrite (handle_AppApply_AppAuto ev w Hev).
    unfold step, runEffects in *.
    destruct (depsChanged w (handle AppAuto ev w)); [reflexivity|].
    now apply applyFilters_fixpoint.
Qed.

(** X18: the version with the effect behaves as the version with the button in
    which Apply is clicked after every event: the same state of the
    component, the same diagnostics and the same saved files. *)
Theorem effect_is_apply_after_each_event (r : Response) (evs : list Event) :
  run AppAuto r evs = run AppApply r (withApply evs).
Proof.
  induction evs as [|ev evs IH] using rev_ind.
  - reflexivity.
  - unfold withApply. rewrite flat_map_app. fold (withApply evs).
    rewrite run_snoc, run_app, <- IH. simpl.
    symmetry. apply step_apply_after, run_AppAuto_current.
Qed.
